(** * fork_server.c: a fork-per-connection TCP server

    A shallow embedding of [src/fork_server.c].  One process executing the
    program is a computation in a small state-and-exit monad over a process
    state: its descriptor table, its table of children, [errno], the trace
    of what it did, and the script of what the kernel answers to the calls
    whose result the program cannot know in advance.

    [fork] returns twice.  A script in which it answers a positive pid is
    the parent's view of the run; a script in which it answers [0] is the
    child's view, the history before the [fork] being shared. *)

From Stdlib Require Import ZArith.
From Stdlib.Strings Require Import Ascii String Byte.
From stdpp Require Import gmap list strings.

Local Open Scope Z_scope.

(** ** Constants of the system headers (Linux values) *)

Definition AF_INET : Z := 2.
Definition SOCK_STREAM : Z := 1.
Definition INADDR_ANY : Z := 0.
Definition SIGCHLD : Z := 17.
Definition WNOHANG : Z := 1.
Definition ECHILD : Z := 10.
Definition EAGAIN : Z := 11.
Definition ENOMEM : Z := 12.
Definition EINVAL : Z := 22.
Definition EMFILE : Z := 24.
Definition EPIPE : Z := 32.
Definition EADDRINUSE : Z := 98.
Definition ECONNRESET : Z := 104.

(** ** Data *)

Record sockaddr_in := SockAddr {
  sin_family : Z;
  sin_port : Z;
  sin_addr : Z
}.

(** What the kernel answers to a call: an integer result, a failure
    ([-1] with [errno] set), or, for [read], the bytes that were waiting
    on the connection. *)
Inductive reply :=
| Val (v : Z)
| Err (e : Z)
| Bytes (bs : list byte).

(** The calls whose result is decided by the kernel. *)
Inductive call :=
| Socket (domain type protocol : Z)
| Bind (fd : Z) (addr : sockaddr_in)
| Listen (fd backlog : Z)
| Accept (fd : Z)
| Fork
| Read (fd : Z) (count : Z)
| Write (fd : Z) (buf : list byte).

Inductive event :=
| Sys (c : call) (r : reply)        (* a call and the kernel's answer *)
| Pending (c : call)                (* a call that has not returned *)
| Close (fd : Z)
| Signal (signo : Z) (handler : string)
| Waitpid (pid options result : Z)
| Perror (msg : string) (e : Z)
| Printf (fmt : string) (arg : list byte)
| Fprintf_stderr (msg : string)
| Exit (status : Z).

Record proc := Proc {
  fds : gset Z;            (* open descriptors *)
  children : list Z;       (* children still running *)
  zombies : list Z;        (* children terminated and not yet waited for *)
  errno : Z;
  trace : list event;
  script : list reply
}.

(** A process that has just been started, facing the script [s]. *)
Definition boot (s : list reply) : proc :=
  {| fds := ∅; children := []; zombies := []; errno := 0;
     trace := []; script := s |}.

Definition emit (e : event) (p : proc) : proc :=
  {| fds := fds p; children := children p; zombies := zombies p;
     errno := errno p; trace := trace p ++ [e]; script := script p |}.

Definition set_script (s : list reply) (p : proc) : proc :=
  {| fds := fds p; children := children p; zombies := zombies p;
     errno := errno p; trace := trace p; script := s |}.

Definition set_errno (e : Z) (p : proc) : proc :=
  {| fds := fds p; children := children p; zombies := zombies p;
     errno := e; trace := trace p; script := script p |}.

Definition set_fds (s : gset Z) (p : proc) : proc :=
  {| fds := s; children := children p; zombies := zombies p;
     errno := errno p; trace := trace p; script := script p |}.

Definition set_children (l : list Z) (p : proc) : proc :=
  {| fds := fds p; children := l; zombies := zombies p;
     errno := errno p; trace := trace p; script := script p |}.

Definition set_zombies (l : list Z) (p : proc) : proc :=
  {| fds := fds p; children := children p; zombies := l;
     errno := errno p; trace := trace p; script := script p |}.

(** ** The monad *)

Inductive outcome (A : Type) :=
| Ret (a : A)            (* the computation returned *)
| Exited (status : Z)    (* the process called exit *)
| Blocked                (* a call has not returned *)
| OutOfFuel.             (* a loop was cut by the model's bound *)
Arguments Ret {A} a.
Arguments Exited {A} status.
Arguments Blocked {A}.
Arguments OutOfFuel {A}.

Definition M (A : Type) : Type := proc -> outcome A * proc.

Definition run {A} (m : M A) (p : proc) : outcome A * proc := m p.

#[global] Instance M_ret : MRet M := fun A a p => (Ret a, p).

#[global] Instance M_bind : MBind M := fun A B f m p =>
  match m p with
  | (Ret a, p') => f a p'
  | (Exited s, p') => (Exited s, p')
  | (Blocked, p') => (Blocked, p')
  | (OutOfFuel, p') => (OutOfFuel, p')
  end.

Definition log (e : event) : M unit := fun p => (Ret tt, emit e p).

Definition when (b : bool) (m : M unit) : M unit :=
  if b then m else mret tt.

(** [while (cond) body], cut after [fuel] evaluations of the condition. *)
Fixpoint while_ (fuel : nat) (cond : M bool) (body : M unit) : M unit :=
  match fuel with
  | O => fun p => (OutOfFuel, p)
  | S k => b ← cond; if b : bool then body ;; while_ k cond body else mret tt
  end.

(** ** The C library and the kernel, as far as the program uses them *)

(** A call returning an [int]: the next answer of the script, when it is
    one for such a call. *)
Definition syscall (c : call) : M Z := fun p =>
  match script p with
  | Val v :: s => (Ret v, emit (Sys c (Val v)) (set_script s p))
  | Err e :: s => (Ret (-1), emit (Sys c (Err e)) (set_errno e (set_script s p)))
  | _ => (Blocked, emit (Pending c) p)
  end.

(** The process state once the kernel has handed out descriptor [fd]. *)
Definition opening (fd : Z) (p : proc) : proc := set_fds ({[fd]} ∪ fds p) p.

Definition open_fd (fd : Z) : M unit := fun p =>
  (Ret tt, if 0 <=? fd then opening fd p else p).

Definition socket (domain type protocol : Z) : M Z :=
  fd ← syscall (Socket domain type protocol); open_fd fd ;; mret fd.

Definition bind (fd : Z) (addr : sockaddr_in) : M Z := syscall (Bind fd addr).

Definition listen (fd backlog : Z) : M Z := syscall (Listen fd backlog).

Definition accept (fd : Z) : M Z :=
  newfd ← syscall (Accept fd); open_fd newfd ;; mret newfd.

(** What [fork] does to the tables of the process it returns in: the
    parent gains a child, the child starts with no children of its own. *)
Definition forked (pid : Z) : M unit := fun p =>
  (Ret tt,
   if 0 <? pid then set_children (children p ++ [pid]) p
   else if pid =? 0 then set_zombies [] (set_children [] p)
   else p).

Definition fork : M Z :=
  pid ← syscall Fork; forked pid ;; mret pid.

(** The process state after [close(fd)]. *)
Definition closing (fd : Z) (p : proc) : proc :=
  emit (Close fd) (set_fds (fds p ∖ {[fd]}) p).

Definition close (fd : Z) : M unit := fun p => (Ret tt, closing fd p).

(** [exit(status)]: the last thing the program does.  The state is the
    one at the call; what the kernel does to a process that ends is
    [held], below. *)
Definition exit {A} (status : Z) : M A := fun p =>
  (Exited status, emit (Exit status) p).

Definition perror (msg : string) : M unit := fun p =>
  (Ret tt, emit (Perror msg (errno p)) p).

Definition printf (fmt : string) (arg : list byte) : M unit :=
  log (Printf fmt arg).

Definition fprintf_stderr (msg : string) : M unit := log (Fprintf_stderr msg).

Definition signal (signo : Z) (handler : string) : M unit :=
  log (Signal signo handler).

Definition bzero (n : nat) : list byte := replicate n x00.

(** [read(fd, buf, count)]: on success the kernel copies at most [count]
    of the waiting bytes to the front of [buf] and returns how many; on
    failure it returns [-1] and leaves [buf] alone.  A bare integer is
    no answer to a [read]: the call stays pending. *)
Definition read (fd : Z) (buf : list byte) (count : Z) : M (Z * list byte) :=
  fun p =>
  match script p with
  | Bytes bs :: s =>
      let got := take (Z.to_nat count) bs in
      (Ret (Z.of_nat (length got), got ++ drop (length got) buf),
       emit (Sys (Read fd count) (Bytes got)) (set_script s p))
  | Err e :: s =>
      (Ret (-1, buf),
       emit (Sys (Read fd count) (Err e)) (set_errno e (set_script s p)))
  | _ => (Blocked, emit (Pending (Read fd count)) p)
  end.

(** The storage of a C string literal: its characters and the final NUL. *)
Definition literal (s : string) : list byte := list_byte_of_string s ++ [x00].

(** [write(fd, s, count)] for a string literal [s]: the first [count]
    bytes of its storage are handed to the kernel.  A [write] that
    fails with EPIPE does not return in these programs: the kernel
    raises SIGPIPE, for which they set no handler, and the process is
    killed inside the call.  No run is described past that point. *)
Definition write (fd : Z) (s : string) (count : Z) : M Z := fun p =>
  match script p with
  | Err e :: _ =>
      if e =? EPIPE
      then (Blocked,
            emit (Pending (Write fd (take (Z.to_nat count) (literal s)))) p)
      else syscall (Write fd (take (Z.to_nat count) (literal s))) p
  | _ => syscall (Write fd (take (Z.to_nat count) (literal s))) p
  end.

(** [waitpid(-1, NULL, WNOHANG)]: reclaims one terminated child and
    returns its pid; returns [0] when children exist and none has
    terminated, [-1] (ECHILD) when there is no child at all. *)
Definition waitpid_nohang : M Z := fun p =>
  match zombies p with
  | z :: zs => (Ret z, emit (Waitpid (-1) WNOHANG z) (set_zombies zs p))
  | [] =>
      match children p with
      | [] => (Ret (-1), emit (Waitpid (-1) WNOHANG (-1)) (set_errno ECHILD p))
      | _ :: _ => (Ret 0, emit (Waitpid (-1) WNOHANG 0) p)
      end
  end.

(** [atoi]: optional white space, an optional sign, then decimal digits. *)
Definition is_space (c : ascii) : bool :=
  let n := nat_of_ascii c in
  (n =? 32)%nat || ((9 <=? n)%nat && (n <=? 13)%nat).

Fixpoint digits (acc : Z) (s : string) : Z :=
  match s with
  | String c r =>
      let d := Z.of_nat (nat_of_ascii c) - 48 in
      if (0 <=? d) && (d <=? 9) then digits (acc * 10 + d) r else acc
  | EmptyString => acc
  end.

Fixpoint atoi (s : string) : Z :=
  match s with
  | String c r =>
      if is_space c then atoi r
      else if Ascii.eqb c "-" then - digits 0 r
      else if Ascii.eqb c "+" then digits 0 r
      else digits 0 s
  | EmptyString => 0
  end.

(** [htons] on a little-endian host: the two bytes of the low 16 bits
    swapped. *)
Definition htons (x : Z) : Z :=
  let h := Z.land x 65535 in
  Z.lor (Z.shiftl (Z.land h 255) 8) (Z.shiftr h 8).

(** The newline character of the C sources' ["\n"]. *)
Definition nl : string := String (ascii_of_nat 10) EmptyString.

(** ** The program *)

(** [error]: line 24. *)
Definition error {A} (msg : string) : M A :=
  perror msg ;; exit 1.

(** [dostuff]: line 40. *)
Definition dostuff (sockfd : Z) : M unit :=
  let buffer := bzero 256 in
  '(n, buffer) ← read sockfd buffer (256 - 1);
  when (n <? 0) (error "ERROR reading from socket") ;;
  printf ("Message from client: %s" ++ nl) buffer ;;
  n ← write sockfd "I got your message" 18;
  when (n <? 0) (error "ERROR writing to socket").

(** [SigCatcher]: line 75. *)
Definition SigCatcher (fuel : nat) (signo : Z) : M unit :=
  while_ fuel (r ← waitpid_nohang; mret (0 <? r)) (mret tt).

(** The child's branch of the [fork]: lines 163 to 175. *)
Definition worker (sockfd newsockfd : Z) : M unit :=
  close sockfd ;;
  dostuff newsockfd ;;
  close newsockfd ;;
  exit 0.

(** The body of the [while (1)] of [main]: lines 149 to 181. *)
Definition serve (sockfd : Z) : M unit :=
  newsockfd ← accept sockfd;
  when (newsockfd <? 0) (error "ERROR on accept") ;;
  pid ← fork;
  when (pid <? 0) (error "ERROR on fork") ;;
  if pid =? 0 then worker sockfd newsockfd
  else close newsockfd.

(** The [while (1)] of [main]: line 146. *)
Definition accept_loop (fuel : nat) (sockfd : Z) : M unit :=
  while_ fuel (mret true) (serve sockfd).

(** [main]: line 81. *)
Definition main (fuel : nat) (argc : Z) (argv : list string) : M Z :=
  signal SIGCHLD "SigCatcher" ;;
  when (argc <? 2)
    (fprintf_stderr ("ERROR, no port provided" ++ nl) ;; exit 1) ;;
  sockfd ← socket AF_INET SOCK_STREAM 0;
  when (sockfd <? 0) (error "ERROR opening socket") ;;
  let portno := atoi (default ""%string (argv !! 1%nat)) in
  let serv_addr :=
    {| sin_family := AF_INET; sin_addr := INADDR_ANY;
       sin_port := htons portno |} in
  r ← bind sockfd serv_addr;
  when (r <? 0) (error "ERROR on binding") ;;
  listen sockfd 5 ;;
  accept_loop fuel sockfd ;;
  mret 0.

(** ** What a trace shows *)

(** The [write] calls of a trace, returned or pending: descriptor and
    bytes handed to the kernel. *)
Definition sent (t : list event) : list (Z * list byte) :=
  omap (fun e => match e with
                 | Sys (Write fd buf) _ | Pending (Write fd buf) => Some (fd, buf)
                 | _ => None
                 end) t.

(** The descriptors a trace closes, in order. *)
Definition closed (t : list event) : list Z :=
  omap (fun e => match e with Close fd => Some fd | _ => None end) t.

(** The buffers a trace passes to [printf]. *)
Definition printed (t : list event) : list (list byte) :=
  omap (fun e => match e with Printf _ arg => Some arg | _ => None end) t.

(** The messages a trace passes to [perror]. *)
Definition complaints (t : list event) : list string :=
  omap (fun e => match e with Perror msg _ => Some msg | _ => None end) t.

(** The [accept] calls of a trace, returned or pending. *)
Definition accepts (t : list event) : list Z :=
  omap (fun e => match e with
                 | Sys (Accept fd) _ | Pending (Accept fd) => Some fd
                 | _ => None
                 end) t.

(** The bytes a trace has got across: for each [write] that returned
    a count, the descriptor and the bytes the kernel took. *)
Definition delivered (t : list event) : list (Z * list byte) :=
  omap (fun e => match e with
                 | Sys (Write fd buf) (Val v) =>
                     if 0 <=? v then Some (fd, take (Z.to_nat v) buf) else None
                 | _ => None
                 end) t.


(** The reply of the protocol. *)
Definition ack : list byte := list_byte_of_string "I got your message".

(** The format [dostuff] prints the request with. *)
Definition fmt_msg : string := "Message from client: %s" ++ nl.

(** The address [main] binds to: [serv_addr] at line 131. *)
Definition serv_addr_of (argv : list string) : sockaddr_in :=
  {| sin_family := AF_INET; sin_addr := INADDR_ANY;
     sin_port := htons (atoi (default ""%string (argv !! 1%nat))) |}.

(** The process state of [main] when it reaches its loop: the handler
    installed, the socket [sockfd] created and bound, [listen] called. *)
Definition listening (argv : list string) (sockfd b : Z) (l : reply)
    (rest : list reply) : proc :=
  emit (Sys (Listen sockfd 5) l)
    (set_errno (match l with Err e => e | _ => 0 end)
       (emit (Sys (Bind sockfd (serv_addr_of argv)) (Val b))
          (opening sockfd
             (emit (Sys (Socket AF_INET SOCK_STREAM 0) (Val sockfd))
                (emit (Signal SIGCHLD "SigCatcher") (boot rest)))))).

(** The 256 bytes of [buffer] after a read that found [bs] waiting. *)
Definition filled (bs : list byte) : list byte :=
  take 255 bs ++ drop (length (take 255 bs)) (bzero 256).

(** ** Bounded runs *)

(** A computation is tame below [n] when, started with fewer than [n]
    replies to come, it does not hit the bound of a loop and leaves no
    more replies than it found. *)
Definition tame_below {A} (n : nat) (m : M A) : Prop :=
  forall p, (length (script p) < n)%nat ->
    fst (run m p) <> OutOfFuel
    /\ (length (script (snd (run m p))) <= length (script p))%nat.

(** ** C strings and what [printf] shows *)

(** The C string held by a buffer: its bytes before the first NUL. *)
Fixpoint c_str (buf : list byte) : list byte :=
  match buf with
  | [] => []
  | b :: r => if Byte.eqb b x00 then [] else b :: c_str r
  end.

(** The text a format produces, each [%s] showing the C string of the
    next argument.  The program uses no other conversion. *)
Fixpoint render (fmt : string) (args : list (list byte)) : list byte :=
  match fmt with
  | EmptyString => []
  | String c r =>
      if Ascii.eqb c "%" then
        match r with
        | String d r' =>
            if Ascii.eqb d "s" then
              match args with
              | a :: args' => c_str a ++ render r' args'
              | [] => render r' []
              end
            else byte_of_ascii c :: render r args
        | EmptyString => [byte_of_ascii c]
        end
      else byte_of_ascii c :: render r args
  end.

(** What a trace puts on the standard output. *)
Definition stdout (t : list event) : list byte :=
  mjoin (omap (fun e => match e with
                        | Printf fmt arg => Some (render fmt [arg])
                        | _ => None
                        end) t).

(** The [read] calls of a trace, returned or pending. *)
Definition reads (t : list event) : list Z :=
  omap (fun e => match e with
                 | Sys (Read fd _) _ | Pending (Read fd _) => Some fd
                 | _ => None
                 end) t.

(** What the [fork] calls of a trace returned. *)
Definition forks (t : list event) : list reply :=
  omap (fun e => match e with
                 | Sys Fork r => Some r
                 | _ => None
                 end) t.

(** The kernel's replies to a series of connections, each accepted on
    descriptor [c.1] and handed to a child of pid [c.2]. *)
Definition dispatches (cs : list (Z * Z)) : list reply :=
  c ← cs; [Val c.1; Val c.2].

(** What the parent does for these connections. *)
Definition dispatch_events (sockfd : Z) (cs : list (Z * Z)) : list event :=
  c ← cs; [Sys (Accept sockfd) (Val c.1); Sys Fork (Val c.2); Close c.1].

(** ** server.c: the server of a single connection *)

Module Server.

(** [main]: line 24 of [src/server.c].  Its [error] is that of
    [src/fork_server.c], word for word. *)
Definition main (argc : Z) (argv : list string) : M Z :=
  when (argc <? 2)
    (fprintf_stderr ("ERROR, no port provided" ++ nl) ;; exit 1) ;;
  sockfd ← socket AF_INET SOCK_STREAM 0;
  when (sockfd <? 0) (error "ERROR opening socket") ;;
  let portno := atoi (default ""%string (argv !! 1%nat)) in
  let serv_addr :=
    {| sin_family := AF_INET; sin_addr := INADDR_ANY;
       sin_port := htons portno |} in
  r ← bind sockfd serv_addr;
  when (r <? 0) (error "ERROR on binding") ;;
  listen sockfd 5 ;;
  newsockfd ← accept sockfd;
  when (newsockfd <? 0) (error "ERROR on accept") ;;
  let buffer := bzero 256 in
  '(n, buffer) ← read newsockfd buffer (256 - 1);
  when (n <? 0) (error "ERROR reading from socket") ;;
  printf ("Here is the message: %s" ++ nl) buffer ;;
  n ← write newsockfd "I got your message" 18;
  when (n <? 0) (error "ERROR writing to socket") ;;
  close newsockfd ;;
  close sockfd ;;
  mret 0.

End Server.

(** ** client.c: the client of one exchange *)

Module Client.

Record sockaddr_in := SockAddr {
  sin_family : Z;
  sin_port : Z;
  s_addr : list byte      (* the address, as [bcopy] left its bytes *)
}.

(** The calls of the client whose result it cannot know in advance.
    The answers are those of the servers: to [gethostbyname], [Bytes]
    is the address of the host found ([h_addr], of [h_length] bytes)
    and [Err] is NULL; to [fgets], [Bytes] is what the standard input
    still holds. *)
Inductive call :=
| Socket (domain type protocol : Z)
| Gethostbyname (name : string)
| Connect (fd : Z) (addr : sockaddr_in)
| Fgets (size : Z)
| Read (fd : Z) (count : Z)
| Write (fd : Z) (buf : list byte).

Inductive event :=
| Sys (c : call) (r : reply)
| Pending (c : call)
| Close (fd : Z)
| Perror (msg : string) (e : Z)
| Printf (fmt : string) (args : list (list byte))
| Fprintf_stderr (fmt : string) (args : list (list byte))
| Exit (status : Z).

Record proc := Proc {
  fds : gset Z;
  errno : Z;
  trace : list event;
  script : list reply
}.

Definition boot (s : list reply) : proc :=
  {| fds := ∅; errno := 0; trace := []; script := s |}.

Definition emit (e : event) (p : proc) : proc :=
  {| fds := fds p; errno := errno p; trace := trace p ++ [e];
     script := script p |}.

Definition set_script (s : list reply) (p : proc) : proc :=
  {| fds := fds p; errno := errno p; trace := trace p; script := s |}.

Definition set_errno (e : Z) (p : proc) : proc :=
  {| fds := fds p; errno := e; trace := trace p; script := script p |}.

Definition set_fds (s : gset Z) (p : proc) : proc :=
  {| fds := s; errno := errno p; trace := trace p; script := script p |}.

Definition M (A : Type) : Type := proc -> outcome A * proc.

Definition run {A} (m : M A) (p : proc) : outcome A * proc := m p.

#[global] Instance M_ret : MRet M := fun A a p => (Ret a, p).

#[global] Instance M_bind : MBind M := fun A B f m p =>
  match m p with
  | (Ret a, p') => f a p'
  | (Exited s, p') => (Exited s, p')
  | (Blocked, p') => (Blocked, p')
  | (OutOfFuel, p') => (OutOfFuel, p')
  end.

Definition log (e : event) : M unit := fun p => (Ret tt, emit e p).

Definition when (b : bool) (m : M unit) : M unit :=
  if b then m else mret tt.

Definition syscall (c : call) : M Z := fun p =>
  match script p with
  | Val v :: s => (Ret v, emit (Sys c (Val v)) (set_script s p))
  | Err e :: s => (Ret (-1), emit (Sys c (Err e)) (set_errno e (set_script s p)))
  | _ => (Blocked, emit (Pending c) p)
  end.

Definition open_fd (fd : Z) : M unit := fun p =>
  (Ret tt, if 0 <=? fd then set_fds ({[fd]} ∪ fds p) p else p).

Definition socket (domain type protocol : Z) : M Z :=
  fd ← syscall (Socket domain type protocol); open_fd fd ;; mret fd.

Definition connect (fd : Z) (addr : sockaddr_in) : M Z :=
  syscall (Connect fd addr).

Definition close (fd : Z) : M unit := fun p =>
  (Ret tt, emit (Close fd) (set_fds (fds p ∖ {[fd]}) p)).

Definition exit {A} (status : Z) : M A := fun p =>
  (Exited status, emit (Exit status) p).

(** [perror(msg)]: the message and the [errno] it finds.  What [perror]
    itself leaves in [errno] is not specified, and not modelled: the
    [errno] of a state after it stands for no value of the real one. *)
Definition perror (msg : string) : M unit := fun p =>
  (Ret tt, emit (Perror msg (errno p)) p).

Definition printf (fmt : string) (args : list (list byte)) : M unit :=
  log (Printf fmt args).

Definition fprintf_stderr (fmt : string) (args : list (list byte)) : M unit :=
  log (Fprintf_stderr fmt args).

(** [gethostbyname]: the address of the host, or NULL.  It reports its
    failures in [h_errno] and leaves [errno] alone. *)
Definition gethostbyname (name : string) : M (option (list byte)) := fun p =>
  match script p with
  | Bytes h_addr :: s =>
      (Ret (Some h_addr),
       emit (Sys (Gethostbyname name) (Bytes h_addr)) (set_script s p))
  | Err e :: s =>
      (Ret None, emit (Sys (Gethostbyname name) (Err e)) (set_script s p))
  | _ => (Blocked, emit (Pending (Gethostbyname name)) p)
  end.

(** [bcopy(src, dst, n)]: the first [n] bytes of [src] over those of
    [dst]. *)
Definition bcopy (src dst : list byte) (n : nat) : list byte :=
  take n src ++ drop n dst.

(** The bytes of an input up to its first newline, the newline
    included. *)
Fixpoint first_line (input : list byte) : list byte :=
  match input with
  | [] => []
  | b :: r => if Byte.eqb b "010" then [b] else b :: first_line r
  end.

(** [fgets(buf, size, stdin)]: at most [size - 1] bytes of the first
    line of the input go to the front of [buf], a NUL after them.  At
    the end of the input [buf] is left as it is.  A failure to read
    leaves [buf] indeterminate: no run is described for it. *)
Definition fgets (buf : list byte) (size : Z) : M (list byte) := fun p =>
  match script p with
  | Bytes input :: s =>
      let line := take (Z.to_nat (size - 1)) (first_line input) in
      (Ret (match line with
            | [] => buf
            | _ :: _ => line ++ x00 :: drop (S (length line)) buf
            end),
       emit (Sys (Fgets size) (Bytes line)) (set_script s p))
  | _ => (Blocked, emit (Pending (Fgets size)) p)
  end.

Definition strlen (buf : list byte) : Z := Z.of_nat (length (c_str buf)).

Definition read (fd : Z) (buf : list byte) (count : Z) : M (Z * list byte) :=
  fun p =>
  match script p with
  | Bytes bs :: s =>
      let got := take (Z.to_nat count) bs in
      (Ret (Z.of_nat (length got), got ++ drop (length got) buf),
       emit (Sys (Read fd count) (Bytes got)) (set_script s p))
  | Err e :: s =>
      (Ret (-1, buf),
       emit (Sys (Read fd count) (Err e)) (set_errno e (set_script s p)))
  | _ => (Blocked, emit (Pending (Read fd count)) p)
  end.

(** [write(fd, buf, count)]: the first [count] bytes of [buf] are handed
    to the kernel.  As in the servers, a [write] that fails with EPIPE
    does not return: SIGPIPE kills the client inside the call. *)
Definition write (fd : Z) (buf : list byte) (count : Z) : M Z := fun p =>
  match script p with
  | Err e :: _ =>
      if e =? EPIPE
      then (Blocked, emit (Pending (Write fd (take (Z.to_nat count) buf))) p)
      else syscall (Write fd (take (Z.to_nat count) buf)) p
  | _ => syscall (Write fd (take (Z.to_nat count) buf)) p
  end.

(** [error]: line 22 of [src/client.c]. *)
Definition error {A} (msg : string) : M A :=
  perror msg ;; exit 1.

(** [main]: line 27 of [src/client.c]. *)
Definition main (argc : Z) (argv : list string) : M Z :=
  when (argc <? 3)
    (fprintf_stderr ("usage %s hostname port" ++ nl)
       [list_byte_of_string (default ""%string (argv !! 0%nat))] ;;
     exit 1) ;;
  let portno := atoi (default ""%string (argv !! 2%nat)) in
  sockfd ← socket AF_INET SOCK_STREAM 0;
  when (sockfd <? 0) (error "ERROR opening socket") ;;
  server ← gethostbyname (default ""%string (argv !! 1%nat));
  match server with
  | None => fprintf_stderr ("ERROR, no such host" ++ nl) [] ;; exit 1
  | Some h_addr =>
      let serv_addr :=
        {| sin_family := AF_INET;
           s_addr := bcopy h_addr (bzero 4) (length h_addr);
           sin_port := htons portno |} in
      r ← connect sockfd serv_addr;
      when (r <? 0) (error "ERROR connecting") ;;
      printf "Please enter the message: " [] ;;
      let buffer := bzero 256 in
      buffer ← fgets buffer (256 - 1);
      n ← write sockfd buffer (strlen buffer);
      when (n <? 0) (error "ERROR writing to socket") ;;
      let buffer := bzero 256 in
      '(n, buffer) ← read sockfd buffer (256 - 1);
      when (n <? 0) (error "ERROR reading from socket") ;;
      printf ("%s" ++ nl) [buffer] ;;
      close sockfd ;;
      mret 0
  end.

(** What a trace of the client hands to [write], and what it puts on
    the standard output. *)
Definition sent (t : list event) : list (Z * list byte) :=
  omap (fun e => match e with
                 | Sys (Write fd buf) _ | Pending (Write fd buf) => Some (fd, buf)
                 | _ => None
                 end) t.

Definition stdout (t : list event) : list byte :=
  mjoin (omap (fun e => match e with
                        | Printf fmt args => Some (render fmt args)
                        | _ => None
                        end) t).

Definition closed (t : list event) : list Z :=
  omap (fun e => match e with Close fd => Some fd | _ => None end) t.

Definition complaints (t : list event) : list string :=
  omap (fun e => match e with Perror msg _ => Some msg | _ => None end) t.

(** The message the client sends for an input: its first line, 254
    bytes of it at most, as a C string. *)
Definition message (input : list byte) : list byte :=
  c_str (take 254 (first_line input)).

End Client.

(** ** The client and the Worker on one connection *)

(** What a connection carries from one side to the other: the bytes of
    a [write] arrive at the [read] of the other side, here in one
    piece; an empty [write] puts nothing on the connection, and the
    [read] of the other side is left waiting. *)
Definition arrives (bs : list byte) (next : list reply) : list reply :=
  match bs with
  | [] => []
  | _ :: _ => Bytes bs :: next
  end.

(** The client, on the input [input], and the Worker's [dostuff], from
    the state [p], at the two ends of one connection.  The request the
    Worker reads is what the client has handed to its [write]; the
    answer the client reads is what the Worker's [write] has got
    across.  The kernel takes each [write] whole. *)
Definition exchange (argc : Z) (argv : list string) (cfd c : Z)
    (h_addr input : list byte) (sfd : Z) (p : proc)
    : (outcome Z * Client.proc) * (outcome unit * proc) :=
  let start := [Val cfd; Bytes h_addr; Val c; Bytes input] in
  let request :=
    mjoin (snd <$> Client.sent
             (Client.trace
                (snd (Client.run (Client.main argc argv) (Client.boot start)))))
  in
  let server := run (dostuff sfd) (set_script (arrives request [Val 18]) p) in
  let answer :=
    mjoin (snd <$> delivered (drop (length (trace p)) (trace (snd server)))) in
  let client :=
    Client.run (Client.main argc argv)
      (Client.boot (start ++ Val (Z.of_nat (length request))
                            :: arrives answer []))
  in
  (client, server).

(** A computation never returns: it ends by [exit], or a call of its
    own stays pending, or the bound of a loop cuts it. *)
Definition never_returns {A} (m : M A) : Prop :=
  forall p a, fst (run m p) <> Ret a.

(** A computation exits with status 0 only in a process in which a
    [fork] has returned 0, that is, in a child. *)
Definition zero_is_child {A} (m : M A) : Prop :=
  forall p, fst (run m p) = Exited 0 ->
    Val 0 ∈ forks (trace (snd (run m p))).

(** ** Equations of the model *)

Lemma run_ret_bind {A B} (a : A) (f : A -> M B) (p : proc) :
  run (mret a ≫= f) p = run (f a) p.
Proof. reflexivity. Qed.

Lemma run_bind_ret {A} (m : M A) (p : proc) : run (m ≫= mret) p = run m p.
Proof.
  unfold run, mbind, M_bind, mret, M_ret. by destruct (m p) as [[a|s| |] q].
Qed.

Lemma run_bind_assoc {A B C} (m : M A) (f : A -> M B) (g : B -> M C)
    (p : proc) :
  run ((m ≫= f) ≫= g) p = run (m ≫= (fun a => f a ≫= g)) p.
Proof.
  unfold run, mbind, M_bind. by destruct (m p) as [[a|s| |] q].
Qed.

Lemma sent_app (t u : list event) : sent (t ++ u) = sent t ++ sent u.
Proof. apply omap_app. Qed.


Lemma printed_app (t u : list event) : printed (t ++ u) = printed t ++ printed u.
Proof. apply omap_app. Qed.

Lemma complaints_app (t u : list event) :
  complaints (t ++ u) = complaints t ++ complaints u.
Proof. apply omap_app. Qed.

Lemma accepts_app (t u : list event) : accepts (t ++ u) = accepts t ++ accepts u.
Proof. apply omap_app. Qed.

Lemma ack_length : length ack = 18%nat.
Proof. reflexivity. Qed.

Lemma ack_literal : take (Z.to_nat 18) (literal "I got your message") = ack.
Proof. reflexivity. Qed.

(** Unfolds the calls of the program down to the process state. *)
Ltac unfold_calls :=
  unfold run, worker, dostuff, error, when, socket, bind, listen, accept, fork,
    forked, open_fd, close, exit, perror, printf, fprintf_stderr, signal, log,
    read, write, syscall, mbind, M_bind, mret, M_ret.

Ltac simpl_proc :=
  cbn [fds children zombies errno trace script closing opening boot
       emit set_script set_errno set_fds set_children set_zombies fst snd].

(** A length is never negative: the test [n < 0] fails after a read
    that succeeded. *)
Lemma length_not_negative {A} (l : list A) : (Z.of_nat (length l) <? 0) = false.
Proof. apply Z.ltb_ge. lia. Qed.

Lemma not_negative (v : Z) : 0 <= v -> (v <? 0) = false.
Proof. intros. apply Z.ltb_ge. lia. Qed.

Lemma negative (v : Z) : v < 0 -> (v <? 0) = true.
Proof. intros. apply Z.ltb_lt. lia. Qed.

(** *** [dostuff], case by case *)

Lemma dostuff_read_error (p : proc) (fd e : Z) (rest : list reply) :
  run (dostuff fd) (set_script (Err e :: rest) p)
  = (Exited 1,
     emit (Exit 1)
       (emit (Perror "ERROR reading from socket" e)
          (emit (Sys (Read fd 255) (Err e))
             (set_errno e (set_script rest p))))).
Proof. reflexivity. Qed.

Lemma dostuff_read_pending (p : proc) (fd : Z) :
  run (dostuff fd) (set_script [] p)
  = (Blocked, emit (Pending (Read fd 255)) (set_script [] p)).
Proof. reflexivity. Qed.

Lemma dostuff_served (p : proc) (fd : Z) (bs : list byte) (v : Z)
    (rest : list reply) :
  0 <= v ->
  run (dostuff fd) (set_script (Bytes bs :: Val v :: rest) p)
  = (Ret tt,
     emit (Sys (Write fd ack) (Val v))
       (emit (Printf fmt_msg (filled bs))
          (emit (Sys (Read fd 255) (Bytes (take 255 bs)))
             (set_script rest p)))).
Proof.
  intros Hv. unfold_calls. simpl_proc.
  change (Z.to_nat (256 - 1)) with 255%nat.
  rewrite length_not_negative. simpl_proc.
  rewrite (not_negative v Hv). reflexivity.
Qed.

Lemma dostuff_write_error (p : proc) (fd : Z) (bs : list byte) (e : Z)
    (rest : list reply) :
  e <> EPIPE ->
  run (dostuff fd) (set_script (Bytes bs :: Err e :: rest) p)
  = (Exited 1,
     emit (Exit 1)
       (emit (Perror "ERROR writing to socket" e)
          (emit (Sys (Write fd ack) (Err e))
             (emit (Printf fmt_msg (filled bs))
                (emit (Sys (Read fd 255) (Bytes (take 255 bs)))
                   (set_errno e (set_script rest p))))))).
Proof.
  intros He. unfold_calls. simpl_proc.
  change (Z.to_nat (256 - 1)) with 255%nat.
  rewrite length_not_negative. simpl_proc.
  rewrite (proj2 (Z.eqb_neq e EPIPE) He). reflexivity.
Qed.

(** A write that fails with EPIPE: the call does not return. *)
Lemma dostuff_write_killed (p : proc) (fd : Z) (bs : list byte)
    (rest : list reply) :
  run (dostuff fd) (set_script (Bytes bs :: Err EPIPE :: rest) p)
  = (Blocked,
     emit (Pending (Write fd ack))
       (emit (Printf fmt_msg (filled bs))
          (emit (Sys (Read fd 255) (Bytes (take 255 bs)))
             (set_script (Err EPIPE :: rest) p)))).
Proof.
  unfold_calls. simpl_proc.
  change (Z.to_nat (256 - 1)) with 255%nat.
  rewrite length_not_negative. reflexivity.
Qed.

Lemma dostuff_write_pending (p : proc) (fd : Z) (bs : list byte) :
  run (dostuff fd) (set_script [Bytes bs] p)
  = (Blocked,
     emit (Pending (Write fd ack))
       (emit (Printf fmt_msg (filled bs))
          (emit (Sys (Read fd 255) (Bytes (take 255 bs)))
             (set_script [] p)))).
Proof.
  unfold_calls. simpl_proc.
  change (Z.to_nat (256 - 1)) with 255%nat.
  rewrite length_not_negative. reflexivity.
Qed.

(** After a read that succeeded, whatever the script holds next, the
    rest of [dostuff] is one [write] of the reply and no [close]. *)
Lemma dostuff_after_read (p : proc) (fd : Z) (bs : list byte)
    (rest : list reply) :
  exists tail,
    trace (snd (run (dostuff fd) (set_script (Bytes bs :: rest) p)))
    = trace p ++ Sys (Read fd 255) (Bytes (take 255 bs))
                 :: Printf fmt_msg (filled bs) :: tail
    /\ sent tail = [(fd, ack)] /\ closed tail = [] /\ printed tail = [].
Proof.
  destruct rest as [|[v|e|bs'] rest].
  - rewrite dostuff_write_pending. simpl_proc.
    exists [Pending (Write fd ack)]. rewrite <- !app_assoc. by simpl.
  - destruct (Z.ltb_spec v 0) as [Hv|Hv].
    + exists [Sys (Write fd ack) (Val v);
              Perror "ERROR writing to socket" (errno p); Exit 1].
      unfold_calls. simpl_proc. change (Z.to_nat (256 - 1)) with 255%nat.
      rewrite length_not_negative. simpl_proc. rewrite (negative v Hv).
      simpl_proc. rewrite <- !app_assoc. by simpl.
    + rewrite dostuff_served by done. simpl_proc.
      exists [Sys (Write fd ack) (Val v)]. rewrite <- !app_assoc. by simpl.
  - destruct (Z.eq_dec e EPIPE) as [->|He].
    + rewrite dostuff_write_killed. simpl_proc.
      exists [Pending (Write fd ack)]. rewrite <- !app_assoc. by simpl.
    + rewrite dostuff_write_error by done. simpl_proc.
      exists [Sys (Write fd ack) (Err e);
              Perror "ERROR writing to socket" e; Exit 1].
      rewrite <- !app_assoc. by simpl.
  - exists [Pending (Write fd ack)].
    unfold_calls. simpl_proc. change (Z.to_nat (256 - 1)) with 255%nat.
    rewrite length_not_negative. simpl_proc.
    rewrite <- !app_assoc. by simpl.
Qed.

Lemma filled_length (bs : list byte) : length (filled bs) = 256%nat.
Proof.
  unfold filled, bzero.
  rewrite length_app, length_drop, length_replicate, length_take. lia.
Qed.

Lemma filled_last (bs : list byte) : filled bs !! 255%nat = Some x00.
Proof.
  unfold filled, bzero.
  assert (Hk : (length (take 255 bs) <= 255)%nat) by (rewrite length_take; lia).
  rewrite lookup_app_r by done.
  rewrite lookup_drop. apply lookup_replicate_2. lia.
Qed.

Lemma filled_prefix (bs : list byte) :
  take (length (take 255 bs)) (filled bs) = take 255 bs.
Proof. unfold filled. by rewrite take_app_length. Qed.

(** ** The Worker *)

(** C1.  For an accepted connection whose request [req] has 0 to 255
    bytes, [dostuff] reads the request, prints it, and sends back the
    18 bytes [I got your message], with no newline after them: one
    [write] on the connection, which the kernel takes whole, after
    which [dostuff] returns.  The bytes are the same whatever [req]
    contains; and whatever the kernel answers, that [write] is the only
    one [dostuff] ever hands it. *)
Theorem dostuff_fixed_reply (p : proc) (sockfd : Z) (req : list byte)
    (rest : list reply) :
  (length req <= 255)%nat ->
  let r := run (dostuff sockfd) (set_script (Bytes req :: Val 18 :: rest) p) in
  r = (Ret tt,
       emit (Sys (Write sockfd ack) (Val 18))
         (emit (Printf fmt_msg (filled req))
            (emit (Sys (Read sockfd 255) (Bytes req)) (set_script rest p))))
  /\ delivered (trace (snd r)) = delivered (trace p) ++ [(sockfd, ack)]
  /\ (forall answers,
        sent (trace (snd (run (dostuff sockfd)
                            (set_script (Bytes req :: answers) p))))
        = sent (trace p) ++ [(sockfd, ack)])
  /\ ack = list_byte_of_string "I got your message"
  /\ length ack = 18%nat
  /\ "010"%byte ∉ ack.
Proof.
  intros Hlen r. subst r.
  rewrite dostuff_served by lia. rewrite (take_ge req) by lia.
  split; [reflexivity|]. split; [|split; [|repeat split]].
  - simpl_proc. unfold delivered. rewrite !omap_app. simpl.
    by rewrite !app_nil_r.
  - intros answers.
    destruct (dostuff_after_read p sockfd req answers) as (tail & -> & Hs & _).
    rewrite sent_app. cbn [sent omap]. by rewrite <- Hs.
  - intros Hin. unfold ack in Hin. vm_compute in Hin.
    repeat (apply elem_of_cons in Hin as [Hin|Hin]; [discriminate|]).
    by apply elem_of_nil in Hin.
Qed.

Lemma dostuff_fixed_reply_witness :
  delivered (trace (snd (run (dostuff 4)
    (set_script [Bytes (list_byte_of_string "hello"); Val 18] (boot [])))))
  = [(4, ack)].
Proof.
  pose proof (dostuff_fixed_reply (boot []) 4 (list_byte_of_string "hello") [])
    as H.
  destruct H as (_ & H & _); [simpl; lia|]. exact H.
Defined.

(** C4.  A read of zero bytes is a valid, empty request: [dostuff] goes
    on, prints the empty buffer and writes the 18-byte reply.  So does
    every read that succeeds.  Only a read that returns a negative value
    takes the failure path, [ERROR reading from socket] and [exit(1)]. *)
Theorem zero_length_read_is_served (p : proc) (fd : Z) (bs : list byte)
    (v e : Z) (rest : list reply) :
  0 <= v ->
  run (dostuff fd) (set_script (Bytes [] :: Val v :: rest) p)
  = (Ret tt,
     emit (Sys (Write fd ack) (Val v))
       (emit (Printf fmt_msg (bzero 256))
          (emit (Sys (Read fd 255) (Bytes [])) (set_script rest p))))
  /\ run (dostuff fd) (set_script (Bytes bs :: Val v :: rest) p)
     = (Ret tt,
        emit (Sys (Write fd ack) (Val v))
          (emit (Printf fmt_msg (filled bs))
             (emit (Sys (Read fd 255) (Bytes (take 255 bs)))
                (set_script rest p))))
  /\ run (dostuff fd) (set_script (Err e :: rest) p)
     = (Exited 1,
        emit (Exit 1)
          (emit (Perror "ERROR reading from socket" e)
             (emit (Sys (Read fd 255) (Err e))
                (set_errno e (set_script rest p))))).
Proof.
  intros Hv. split; [|split].
  - apply (dostuff_served p fd [] v rest Hv).
  - apply (dostuff_served p fd bs v rest Hv).
  - apply dostuff_read_error.
Qed.

Lemma zero_length_read_is_served_witness :
  fst (run (dostuff 4) (set_script [Bytes []; Val 18] (boot []))) = Ret tt.
Proof.
  pose proof (zero_length_read_is_served (boot []) 4 [] 18 104 []) as H.
  destruct H as [H _]; [lia|]. by rewrite H.
Defined.

(** C10.  Whatever bytes are waiting on the connection, and however
    many, the buffer [dostuff] passes to [printf] has 256 bytes of which
    the last is zero: it begins with the (at most 255) bytes read and the
    bytes after them are those of the zeroed buffer. *)
Theorem printf_buffer_nul_terminated (p : proc) (fd : Z) (bs : list byte)
    (rest : list reply) :
  let p' := snd (run (dostuff fd) (set_script (Bytes bs :: rest) p)) in
  printed (trace p') = printed (trace p) ++ [filled bs]
  /\ length (filled bs) = 256%nat
  /\ filled bs !! 255%nat = Some x00
  /\ (length (take 255 bs) <= 255)%nat
  /\ take (length (take 255 bs)) (filled bs) = take 255 bs
  /\ drop (length (take 255 bs)) (filled bs)
     = replicate (256 - length (take 255 bs)) x00.
Proof.
  intros p'. subst p'.
  destruct (dostuff_after_read p fd bs rest) as (tail & -> & _ & _ & Hp).
  split; [|split; [|split; [|split; [|split]]]].
  - rewrite printed_app. f_equal.
    change (filled bs :: printed tail = [filled bs]). by rewrite Hp.
  - apply filled_length.
  - apply filled_last.
  - rewrite length_take. lia.
  - apply filled_prefix.
  - unfold filled, bzero. rewrite drop_app_length. apply drop_replicate.
Qed.

(** [dostuff] opens and closes nothing. *)
Lemma dostuff_fds (p : proc) (fd : Z) :
  fds (snd (run (dostuff fd) p)) = fds p.
Proof.
  unfold_calls. destruct (script p) as [|[v|e|bs] [|[v'|e'|bs'] rest]];
    simpl_proc; try reflexivity;
    change (Z.to_nat (256 - 1)) with 255%nat;
    rewrite ?length_not_negative; simpl_proc; try reflexivity.
  all: try destruct (v' <? 0); try destruct (e' =? EPIPE); reflexivity.
Qed.

(** *** The child's branch, case by case *)

Lemma worker_served (p : proc) (sockfd newfd : Z) (bs : list byte) (v : Z)
    (rest : list reply) :
  0 <= v ->
  run (worker sockfd newfd) (set_script (Bytes bs :: Val v :: rest) p)
  = (Exited 0,
     emit (Exit 0)
       (closing newfd
          (emit (Sys (Write newfd ack) (Val v))
             (emit (Printf fmt_msg (filled bs))
                (emit (Sys (Read newfd 255) (Bytes (take 255 bs)))
                   (closing sockfd (set_script rest p))))))).
Proof.
  intros Hv. unfold run, worker, close, mbind, M_bind.
  change (closing sockfd (set_script (Bytes bs :: Val v :: rest) p))
    with (set_script (Bytes bs :: Val v :: rest) (closing sockfd p)).
  pose proof (dostuff_served (closing sockfd p) newfd bs v rest Hv) as H.
  unfold run in H. by rewrite H.
Qed.

Lemma worker_read_error (p : proc) (sockfd newfd e : Z) (rest : list reply) :
  run (worker sockfd newfd) (set_script (Err e :: rest) p)
  = (Exited 1,
     emit (Exit 1)
       (emit (Perror "ERROR reading from socket" e)
          (emit (Sys (Read newfd 255) (Err e))
             (set_errno e (closing sockfd (set_script rest p)))))).
Proof. reflexivity. Qed.

Lemma worker_write_error (p : proc) (sockfd newfd : Z) (bs : list byte)
    (e : Z) (rest : list reply) :
  e <> EPIPE ->
  run (worker sockfd newfd) (set_script (Bytes bs :: Err e :: rest) p)
  = (Exited 1,
     emit (Exit 1)
       (emit (Perror "ERROR writing to socket" e)
          (emit (Sys (Write newfd ack) (Err e))
             (emit (Printf fmt_msg (filled bs))
                (emit (Sys (Read newfd 255) (Bytes (take 255 bs)))
                   (set_errno e (closing sockfd (set_script rest p)))))))).
Proof.
  intros He. unfold run, worker, close, mbind, M_bind.
  change (closing sockfd (set_script (Bytes bs :: Err e :: rest) p))
    with (set_script (Bytes bs :: Err e :: rest) (closing sockfd p)).
  pose proof (dostuff_write_error (closing sockfd p) newfd bs e rest He) as H.
  unfold run in H. by rewrite H.
Qed.

(** The child never gets the listening socket back. *)
Lemma worker_fds (p : proc) (sockfd newfd : Z) :
  fds (snd (run (worker sockfd newfd) p)) ⊆ fds p ∖ {[sockfd]}.
Proof.
  unfold run, worker, close, mbind, M_bind.
  pose proof (dostuff_fds (closing sockfd p) newfd) as H. unfold run in H.
  destruct (dostuff newfd (closing sockfd p)) as [[[]| | |] q];
    simpl in H |- *; rewrite H; clear H;
    try reflexivity; apply subseteq_difference_l; reflexivity.
Qed.

(** *** One turn of the accept loop, case by case *)

Lemma serve_accept_error (p : proc) (sockfd e : Z) (rest : list reply) :
  run (serve sockfd) (set_script (Err e :: rest) p)
  = (Exited 1,
     emit (Exit 1)
       (emit (Perror "ERROR on accept" e)
          (emit (Sys (Accept sockfd) (Err e))
             (set_errno e (set_script rest p))))).
Proof. reflexivity. Qed.

Lemma serve_accept_pending (p : proc) (sockfd : Z) :
  run (serve sockfd) (set_script [] p)
  = (Blocked, emit (Pending (Accept sockfd)) (set_script [] p)).
Proof. reflexivity. Qed.

Lemma serve_fork_error (p : proc) (sockfd newfd e : Z) (rest : list reply) :
  0 <= newfd ->
  run (serve sockfd) (set_script (Val newfd :: Err e :: rest) p)
  = (Exited 1,
     emit (Exit 1)
       (emit (Perror "ERROR on fork" e)
          (emit (Sys Fork (Err e))
             (set_errno e
                (opening newfd
                   (emit (Sys (Accept sockfd) (Val newfd))
                      (set_script rest p))))))).
Proof.
  intros Hfd. unfold serve, accept, fork, forked, open_fd, syscall, when.
  unfold run, mbind, M_bind, mret, M_ret. simpl_proc.
  rewrite (proj2 (Z.leb_le 0 newfd) Hfd), (not_negative newfd Hfd).
  reflexivity.
Qed.

Lemma serve_parent (p : proc) (sockfd newfd pid : Z) (rest : list reply) :
  0 <= newfd -> 0 < pid ->
  run (serve sockfd) (set_script (Val newfd :: Val pid :: rest) p)
  = (Ret tt,
     closing newfd
       (set_children (children p ++ [pid])
          (emit (Sys Fork (Val pid))
             (opening newfd
                (emit (Sys (Accept sockfd) (Val newfd))
                   (set_script rest p)))))).
Proof.
  intros Hfd Hpid. unfold serve, accept, fork, forked, open_fd, syscall, when.
  unfold run, mbind, M_bind, mret, M_ret. simpl_proc.
  rewrite (proj2 (Z.leb_le 0 newfd) Hfd), (not_negative newfd Hfd). simpl_proc.
  rewrite (proj2 (Z.ltb_lt 0 pid) Hpid), (not_negative pid) by lia.
  destruct (Z.eqb_spec pid 0) as [->|_]; [lia|]. reflexivity.
Qed.

Lemma serve_child (p : proc) (sockfd newfd : Z) (rest : list reply) :
  0 <= newfd ->
  run (serve sockfd) (set_script (Val newfd :: Val 0 :: rest) p)
  = run (worker sockfd newfd)
      (set_zombies []
         (set_children []
            (emit (Sys Fork (Val 0))
               (opening newfd
                  (emit (Sys (Accept sockfd) (Val newfd))
                     (set_script rest p)))))).
Proof.
  intros Hfd. unfold serve, accept, fork, forked, open_fd, syscall, when.
  unfold run, mbind, M_bind, mret, M_ret. simpl_proc.
  rewrite (proj2 (Z.leb_le 0 newfd) Hfd), (not_negative newfd Hfd).
  reflexivity.
Qed.

(** The loop runs [serve] and, when [serve] returns, starts again. *)
Lemma accept_loop_turn (fuel : nat) (sockfd : Z) (p : proc) :
  run (accept_loop (S fuel) sockfd) p
  = match run (serve sockfd) p with
    | (Ret _, p') => run (accept_loop fuel sockfd) p'
    | (Exited s, p') => (Exited s, p')
    | (Blocked, p') => (Blocked, p')
    | (OutOfFuel, p') => (OutOfFuel, p')
    end.
Proof. reflexivity. Qed.

(** ** The Reaper *)

(** One turn of the loop of [SigCatcher] when a terminated child waits. *)
Lemma SigCatcher_reaps (p : proc) (fuel : nat) (signo z : Z) (zs : list Z) :
  zombies p = z :: zs -> 0 < z ->
  run (SigCatcher (S fuel) signo) p
  = run (SigCatcher fuel signo)
      (emit (Waitpid (-1) WNOHANG z) (set_zombies zs p)).
Proof.
  intros Hz Hpos. unfold run, SigCatcher. cbn [while_].
  unfold mbind, M_bind, mret, M_ret, waitpid_nohang. rewrite Hz.
  by rewrite (proj2 (Z.ltb_lt 0 z) Hpos).
Qed.

(** The last turn: no terminated child is left. *)
Lemma SigCatcher_stops (p : proc) (fuel : nat) (signo : Z) :
  zombies p = [] ->
  run (SigCatcher (S fuel) signo) p
  = (Ret tt,
     match children p with
     | [] => emit (Waitpid (-1) WNOHANG (-1)) (set_errno ECHILD p)
     | _ :: _ => emit (Waitpid (-1) WNOHANG 0) p
     end).
Proof.
  intros Hz. unfold run, SigCatcher. cbn [while_].
  unfold mbind, M_bind, mret, M_ret, waitpid_nohang. rewrite Hz.
  by destruct (children p).
Qed.

(** C5.  One invocation of [SigCatcher] reclaims every child that has
    terminated by then, not just one: with [k] of them pending it calls
    [waitpid(-1, NULL, WNOHANG)] [k + 1] times, reclaiming one child at
    each of the first [k] calls, and returns at the first call that
    finds none left.  No call blocks, and the children still running
    are left alone. *)
Theorem SigCatcher_drains_all (p : proc) (fuel : nat) (signo : Z) :
  Forall (fun z => 0 < z) (zombies p) ->
  (length (zombies p) < fuel)%nat ->
  let r := run (SigCatcher fuel signo) p in
  fst r = Ret tt
  /\ zombies (snd r) = []
  /\ children (snd r) = children p
  /\ fds (snd r) = fds p
  /\ trace (snd r)
     = trace p ++ map (Waitpid (-1) WNOHANG) (zombies p)
         ++ [Waitpid (-1) WNOHANG
               (match children p with [] => -1 | _ :: _ => 0 end)].
Proof.
  remember (zombies p) as zs eqn:Hz. symmetry in Hz.
  revert p fuel Hz.
  induction zs as [|z zs IH]; intros p fuel Hz Hpos Hfuel r; subst r;
    (destruct fuel as [|fuel]; [simpl in Hfuel; lia|]).
  - rewrite SigCatcher_stops by done.
    destruct (children p) eqn:Hc; simpl_proc; by rewrite ?Hz, ?Hc.
  - apply Forall_cons in Hpos as [Hz0 Hpos].
    rewrite (SigCatcher_reaps p fuel signo z zs Hz Hz0).
    destruct (IH (emit (Waitpid (-1) WNOHANG z) (set_zombies zs p)) fuel)
      as (Hr & Hzs & Hch & Hfd & Htr); [done|done|simpl in Hfuel; lia|].
    repeat split; try done.
    rewrite Htr. simpl_proc. by rewrite <- app_assoc.
Qed.

Lemma SigCatcher_drains_all_witness :
  let r := run (SigCatcher 4 SIGCHLD)
             (set_zombies [101; 102; 103] (set_children [104] (boot []))) in
  fst r = Ret tt
  /\ zombies (snd r) = []
  /\ children (snd r) = [104]
  /\ fds (snd r) = ∅
  /\ trace (snd r)
     = [Waitpid (-1) WNOHANG 101; Waitpid (-1) WNOHANG 102;
        Waitpid (-1) WNOHANG 103; Waitpid (-1) WNOHANG 0].
Proof.
  apply (SigCatcher_drains_all
           (set_zombies [101; 102; 103] (set_children [104] (boot []))) 4 SIGCHLD).
  - simpl. repeat constructor.
  - simpl. lia.
Defined.

(** ** The Worker and its Connection Handle *)


(** C8.  After a [fork] that succeeded, the two processes that return
    from it part ways.  The parent closes the connected socket at once
    and is left with the descriptors it had before the [accept], the
    listening socket among them.  The child closes the listening socket
    before it does anything else and then holds the connected socket
    while it serves; it never has the listening socket again. *)
Theorem dispatch_transfers_ownership (p : proc) (sockfd newfd pid : Z)
    (rest : list reply) :
  sockfd ∈ fds p -> newfd ∉ fds p -> 0 <= newfd -> 0 < pid ->
  let parent := run (serve sockfd)
                  (set_script (Val newfd :: Val pid :: rest) p) in
  let serving := run (serve sockfd) (set_script [Val newfd; Val 0] p) in
  let child := run (serve sockfd)
                 (set_script (Val newfd :: Val 0 :: rest) p) in
  (fst parent = Ret tt
   /\ trace (snd parent)
      = trace p ++ [Sys (Accept sockfd) (Val newfd); Sys Fork (Val pid);
                    Close newfd]
   /\ fds (snd parent) = fds p
   /\ sockfd ∈ fds (snd parent)
   /\ newfd ∉ fds (snd parent))
  /\ (fst serving = Blocked
      /\ trace (snd serving)
         = trace p ++ [Sys (Accept sockfd) (Val newfd); Sys Fork (Val 0);
                       Close sockfd; Pending (Read newfd 255)]
      /\ newfd ∈ fds (snd serving)
      /\ sockfd ∉ fds (snd serving))
  /\ sockfd ∉ fds (snd child).
Proof.
  intros Hs Hn Hfd Hpid parent serving child. subst parent serving child.
  assert (Hne : newfd <> sockfd) by (intros ->; contradiction).
  assert (Hsame : ({[newfd]} ∪ fds p) ∖ {[newfd]} = fds p).
  { apply set_eq. intros x.
    rewrite elem_of_difference, elem_of_union, !elem_of_singleton.
    split; [intros [[->|Hx] Hx']; [contradiction|exact Hx]|].
    intros Hx. split; [by right|]. intros ->. contradiction. }
  rewrite serve_parent by done. rewrite !serve_child by done.
  split; [|split].
  - simpl_proc. rewrite <- !app_assoc, Hsame. repeat split; try done.
  - unfold run, worker, close, mbind, M_bind.
    match goal with |- context [dostuff newfd ?q] =>
      change (dostuff newfd q)
        with (run (dostuff newfd) (set_script [] q)) end.
    rewrite dostuff_read_pending. simpl_proc. rewrite <- !app_assoc.
    repeat split.
    + apply elem_of_difference. split.
      * apply elem_of_union. left. by apply elem_of_singleton.
      * by rewrite elem_of_singleton.
    + apply not_elem_of_difference. right. by apply elem_of_singleton.
  - intros Hin. apply worker_fds in Hin. simpl_proc.
    apply elem_of_difference in Hin as [_ Hin].
    apply Hin. by apply elem_of_singleton.
Qed.

Lemma dispatch_transfers_ownership_witness :
  fds (snd (run (serve 3) (set_script [Val 4; Val 100] (opening 3 (boot [])))))
  = fds (opening 3 (boot [])).
Proof.
  pose proof (dispatch_transfers_ownership (opening 3 (boot [])) 3 4 100 [])
    as H.
  destruct H as [(_ & _ & H & _) _].
  - simpl_proc. apply elem_of_union. left. by apply elem_of_singleton.
  - simpl_proc. rewrite elem_of_union, elem_of_singleton.
    intros [H|H]; [discriminate|]. by apply not_elem_of_empty in H.
  - lia.
  - lia.
  - exact H.
Defined.

(** ** The Acceptor *)

Lemma bind_exited {A B} (m : M A) (f : A -> M B) (p p' : proc) (s : Z) :
  run m p = (Exited s, p') -> run (m ≫= f) p = (Exited s, p').
Proof. unfold run, mbind, M_bind. by intros ->. Qed.

Lemma bind_blocked {A B} (m : M A) (f : A -> M B) (p p' : proc) :
  run m p = (Blocked, p') -> run (m ≫= f) p = (Blocked, p').
Proof. unfold run, mbind, M_bind. by intros ->. Qed.

(** [main] up to its loop, when the socket is created and bound.  The
    result of [listen] is not looked at: the loop is entered whatever
    the kernel answered. *)
Lemma main_enters_loop (fuel : nat) (argc : Z) (argv : list string)
    (sockfd b : Z) (l : reply) (rest : list reply) :
  2 <= argc -> 0 <= sockfd -> 0 <= b ->
  match l with Bytes _ => False | _ => True end ->
  run (main fuel argc argv) (boot (Val sockfd :: Val b :: l :: rest))
  = run (accept_loop fuel sockfd ;; mret 0) (listening argv sockfd b l rest).
Proof.
  intros Hargc Hfd Hb Hl.
  unfold main, socket, bind, listen, syscall, open_fd, when, signal, log.
  unfold run, mbind, M_bind, mret, M_ret. simpl_proc.
  rewrite (proj2 (Z.ltb_ge argc 2)) by lia. simpl_proc.
  rewrite (proj2 (Z.leb_le 0 sockfd) Hfd), (not_negative sockfd Hfd).
  simpl_proc. rewrite (not_negative b Hb).
  destruct l as [v|e|bs]; [reflexivity|reflexivity|contradiction].
Qed.

(** X2.  A failure of [bind] ends the server before [listen] is called:
    it reports [ERROR on binding] with the [errno] of the [bind] and
    exits with status 1, the socket still open. *)
Lemma bind_failure_is_fatal (fuel : nat) (argc : Z) (argv : list string)
    (sockfd e : Z) (rest : list reply) :
  2 <= argc -> 0 <= sockfd ->
  run (main fuel argc argv) (boot (Val sockfd :: Err e :: rest))
  = (Exited 1,
     emit (Exit 1)
       (emit (Perror "ERROR on binding" e)
          (emit (Sys (Bind sockfd (serv_addr_of argv)) (Err e))
             (set_errno e
                (opening sockfd
                   (emit (Sys (Socket AF_INET SOCK_STREAM 0) (Val sockfd))
                      (emit (Signal SIGCHLD "SigCatcher") (boot rest)))))))).
Proof.
  intros Hargc Hfd.
  unfold main, socket, bind, listen, syscall, open_fd, when, signal, log.
  unfold run, mbind, M_bind, mret, M_ret. simpl_proc.
  rewrite (proj2 (Z.ltb_ge argc 2)) by lia. simpl_proc.
  rewrite (proj2 (Z.leb_le 0 sockfd) Hfd), (not_negative sockfd Hfd).
  reflexivity.
Qed.

(** C9.  Started with [argc < 2], [main] installs its SIGCHLD handler,
    prints [ERROR, no port provided] on the standard error and exits
    with status 1.  It makes no call to the kernel on the way: no
    socket is created and no descriptor is open when it exits. *)
Theorem missing_port_is_usage_error (fuel : nat) (argc : Z)
    (argv : list string) (s : list reply) :
  argc < 2 ->
  let r := run (main fuel argc argv) (boot s) in
  fst r = Exited 1
  /\ trace (snd r)
     = [Signal SIGCHLD "SigCatcher";
        Fprintf_stderr ("ERROR, no port provided" ++ nl); Exit 1]
  /\ fds (snd r) = ∅
  /\ script (snd r) = s.
Proof.
  intros Hargc r. subst r.
  unfold main, when, signal, fprintf_stderr, exit, log.
  unfold run, mbind, M_bind, mret, M_ret. simpl_proc.
  by rewrite (proj2 (Z.ltb_lt argc 2) Hargc).
Qed.

Lemma missing_port_is_usage_error_witness :
  fst (run (main 1 1 ["fork_server"%string]) (boot [])) = Exited 1.
Proof.
  pose proof (missing_port_is_usage_error 1 1 ["fork_server"%string] []) as H.
  destruct H as [H _]; [lia|]. exact H.
Defined.

(** C2, as the code has it.  Every failure of [accept] is fatal, the
    transient ones included: at whichever turn of the loop it happens
    and whatever [errno] says, the server reports [ERROR on accept] and
    exits with status 1.  No further [accept] is made: the replies that
    were still to come stay unread. *)
Theorem accept_failure_is_fatal (p : proc) (fuel : nat) (argc : Z)
    (argv : list string) (sockfd b e : Z) (l : reply) (rest : list reply) :
  2 <= argc -> 0 <= sockfd -> 0 <= b ->
  match l with Bytes _ => False | _ => True end ->
  run (accept_loop (S fuel) sockfd) (set_script (Err e :: rest) p)
  = (Exited 1,
     emit (Exit 1)
       (emit (Perror "ERROR on accept" e)
          (emit (Sys (Accept sockfd) (Err e))
             (set_errno e (set_script rest p)))))
  /\ run (main (S fuel) argc argv)
       (boot (Val sockfd :: Val b :: l :: Err e :: rest))
     = (Exited 1,
        emit (Exit 1)
          (emit (Perror "ERROR on accept" e)
             (emit (Sys (Accept sockfd) (Err e))
                (set_errno e (listening argv sockfd b l rest))))).
Proof.
  intros Hargc Hfd Hb Hl.
  assert (Hloop : forall q,
    run (accept_loop (S fuel) sockfd) (set_script (Err e :: rest) q)
    = (Exited 1,
       emit (Exit 1)
         (emit (Perror "ERROR on accept" e)
            (emit (Sys (Accept sockfd) (Err e))
               (set_errno e (set_script rest q)))))).
  { intros q. by rewrite accept_loop_turn, serve_accept_error. }
  split; [apply Hloop|].
  rewrite main_enters_loop by done.
  apply bind_exited.
  change (listening argv sockfd b l (Err e :: rest))
    with (set_script (Err e :: rest) (listening argv sockfd b l rest)).
  by rewrite Hloop.
Qed.

Lemma accept_failure_is_fatal_witness :
  fst (run (main 2 2 ["fork_server"; "8080"]%string)
         (boot [Val 3; Val 0; Val 0; Err ENOMEM; Val 4; Val 100]))
  = Exited 1.
Proof.
  pose proof (accept_failure_is_fatal (boot []) 1 2
                ["fork_server"; "8080"]%string 3 0 ENOMEM (Val 0)
                [Val 4; Val 100]) as H.
  destruct H as [_ H]; [lia|lia|lia|exact I|]. by rewrite H.
Defined.

(** C2, as stated, fails.  The first [accept] fails with EMFILE, the
    descriptor table being full for the moment, while a connection
    would have come next: the server exits with status 1 after that
    single [accept], its [ERROR on accept] report being the only one,
    and the connection is never accepted. *)
Lemma transient_accept_failure_terminates :
  let r := run (main 2 2 ["fork_server"; "8080"]%string)
             (boot [Val 3; Val 0; Val 0; Err EMFILE; Val 4; Val 100]) in
  fst r = Exited 1
  /\ accepts (trace (snd r)) = [3]
  /\ complaints (trace (snd r)) = ["ERROR on accept"%string]
  /\ script (snd r) = [Val 4; Val 100].
Proof. vm_compute. repeat split. Qed.

(** C3, as the code has it.  A failure of [fork] is fatal: the server
    reports [ERROR on fork] and exits with status 1, at whichever turn
    of the loop it happens.  It makes no [close] of the connection it
    had just accepted and no further [accept]. *)
Theorem fork_failure_is_fatal (p : proc) (fuel : nat) (sockfd newfd e : Z)
    (rest : list reply) :
  0 <= newfd ->
  let r := run (accept_loop (S fuel) sockfd)
             (set_script (Val newfd :: Err e :: rest) p) in
  fst r = Exited 1
  /\ trace (snd r)
     = trace p ++ [Sys (Accept sockfd) (Val newfd); Sys Fork (Err e);
                   Perror "ERROR on fork" e; Exit 1]
  /\ fds (snd r) = {[newfd]} ∪ fds p
  /\ script (snd r) = rest.
Proof.
  intros Hfd r. subst r.
  rewrite accept_loop_turn, serve_fork_error by done.
  simpl_proc. by rewrite <- !app_assoc.
Qed.

Lemma fork_failure_is_fatal_witness :
  fst (run (accept_loop 2 3)
         (set_script [Val 4; Err EAGAIN; Val 5; Val 100] (opening 3 (boot []))))
  = Exited 1.
Proof.
  pose proof (fork_failure_is_fatal (opening 3 (boot [])) 1 3 4 EAGAIN
                [Val 5; Val 100]) as H.
  destruct H as [H _]; [lia|]. exact H.
Defined.

(** C3, as stated, fails.  The [fork] for the first connection fails
    with EAGAIN while a second connection would have come next: the
    server exits with status 1 without having closed anything, the
    connection 4 still in its descriptor table, and the second
    connection is never accepted. *)
Lemma dispatch_failure_terminates :
  let r := run (main 2 2 ["fork_server"; "8080"]%string)
             (boot [Val 3; Val 0; Val 0; Val 4; Err EAGAIN; Val 5; Val 100]) in
  fst r = Exited 1
  /\ closed (trace (snd r)) = []
  /\ accepts (trace (snd r)) = [3]
  /\ fds (snd r) = {[3; 4]}
  /\ script (snd r) = [Val 5; Val 100].
Proof. vm_compute. repeat split. Qed.

(** C6.  A failure at start-up is fatal.  When [bind] fails, the
    server reports it and exits with status 1 before it calls
    [listen].  When [listen] fails, the socket is not listening and the
    kernel refuses the [accept] that follows (EINVAL): the server
    reports that failure and exits with status 1.  In both cases it has
    accepted no connection and made no child. *)
Theorem startup_failure_is_fatal (fuel : nat) (argc : Z) (argv : list string)
    (sockfd b e e' : Z) (rest : list reply) :
  2 <= argc -> 0 <= sockfd -> 0 <= b ->
  let nobind := run (main (S fuel) argc argv)
                  (boot (Val sockfd :: Err e :: rest)) in
  let nolisten := run (main (S fuel) argc argv)
                    (boot (Val sockfd :: Val b :: Err e :: Err e' :: rest)) in
  (fst nobind = Exited 1
   /\ trace (snd nobind)
      = [Signal SIGCHLD "SigCatcher";
         Sys (Socket AF_INET SOCK_STREAM 0) (Val sockfd);
         Sys (Bind sockfd (serv_addr_of argv)) (Err e);
         Perror "ERROR on binding" e; Exit 1])
  /\ (fst nolisten = Exited 1
      /\ trace (snd nolisten)
         = [Signal SIGCHLD "SigCatcher";
            Sys (Socket AF_INET SOCK_STREAM 0) (Val sockfd);
            Sys (Bind sockfd (serv_addr_of argv)) (Val b);
            Sys (Listen sockfd 5) (Err e);
            Sys (Accept sockfd) (Err e');
            Perror "ERROR on accept" e'; Exit 1]
      /\ forks (trace (snd nolisten)) = []
      /\ script (snd nolisten) = rest).
Proof.
  intros Hargc Hfd Hb nobind nolisten. subst nobind nolisten. split.
  - unfold main, socket, bind, listen, syscall, open_fd, when, signal, log.
    unfold run, mbind, M_bind, mret, M_ret. simpl_proc.
    rewrite (proj2 (Z.ltb_ge argc 2)) by lia. simpl_proc.
    rewrite (proj2 (Z.leb_le 0 sockfd) Hfd), (not_negative sockfd Hfd).
    by split.
  - rewrite main_enters_loop by done.
    change (listening argv sockfd b (Err e) (Err e' :: rest))
      with (set_script (Err e' :: rest) (listening argv sockfd b (Err e) rest)).
    rewrite (bind_exited _ _ _
               (emit (Exit 1)
                  (emit (Perror "ERROR on accept" e')
                     (emit (Sys (Accept sockfd) (Err e'))
                        (set_errno e'
                           (set_script rest
                              (listening argv sockfd b (Err e) rest))))))
               1).
    + by repeat split.
    + by rewrite accept_loop_turn, serve_accept_error.
Qed.

Lemma startup_failure_is_fatal_witness :
  fst (run (main 1 2 ["fork_server"; "8080"]%string)
         (boot [Val 3; Val 0; Err EADDRINUSE; Err EINVAL]))
  = Exited 1.
Proof.
  pose proof (startup_failure_is_fatal 0 2 ["fork_server"; "8080"]%string
                3 0 EADDRINUSE EINVAL []) as H.
  destruct H as (_ & H & _); [lia..|]. exact H.
Defined.

(** The same for every run: after a [listen] that failed, the next
    thing the server does is to call [accept]. *)
Lemma listen_failure_reaches_accept (fuel : nat) (argc : Z)
    (argv : list string) (sockfd b e : Z) :
  2 <= argc -> 0 <= sockfd -> 0 <= b ->
  run (main (S fuel) argc argv) (boot [Val sockfd; Val b; Err e])
  = (Blocked,
     emit (Pending (Accept sockfd)) (listening argv sockfd b (Err e) [])).
Proof.
  intros Hargc Hfd Hb. rewrite main_enters_loop by done.
  apply bind_blocked. rewrite accept_loop_turn.
  change (listening argv sockfd b (Err e) [])
    with (set_script [] (listening argv sockfd b (Err e) [])).
  by rewrite serve_accept_pending.
Qed.

(** ** The bound on the loops is no restriction *)

Create HintDb tame.

Lemma tame_ret {A} (n : nat) (a : A) : tame_below n (mret a).
Proof. intros p _. by split. Qed.

Lemma tame_bind {A B} (n : nat) (m : M A) (f : A -> M B) :
  tame_below n m -> (forall a, tame_below n (f a)) -> tame_below n (m ≫= f).
Proof.
  intros Hm Hf p Hp. destruct (Hm p Hp) as [Hfuel Hlen].
  unfold run, mbind, M_bind in *.
  destruct (m p) as [[a|s| |] q]; simpl in *; try done.
  destruct (Hf a q) as [Hfuel' Hlen']; [lia|]. unfold run in *.
  split; [done|lia].
Qed.

Lemma tame_when (n : nat) (b : bool) (m : M unit) :
  tame_below n m -> tame_below n (when b m).
Proof. destruct b; [done|]. intros _. apply tame_ret. Qed.

Lemma tame_syscall (n : nat) (c : call) : tame_below n (syscall c).
Proof.
  intros p _. unfold run, syscall.
  destruct (script p) as [|[v|e|bs] s] eqn:Hs; simpl; rewrite ?Hs;
    split; try done; simpl; lia.
Qed.

Lemma tame_read (n : nat) (fd : Z) (buf : list byte) (count : Z) :
  tame_below n (read fd buf count).
Proof.
  intros p _. unfold run, read.
  destruct (script p) as [|[v|e|bs] s] eqn:Hs; simpl; rewrite ?Hs;
    split; try done; simpl; lia.
Qed.

Lemma tame_write (n : nat) (fd : Z) (s : string) (count : Z) :
  tame_below n (write fd s count).
Proof.
  intros p _. unfold run, write, syscall.
  destruct (script p) as [|[v|e|bs] s'] eqn:Hs; simpl; rewrite ?Hs;
    try destruct (e =? EPIPE); simpl; rewrite ?Hs;
    split; try done; simpl; lia.
Qed.

Lemma tame_open_fd (n : nat) (fd : Z) : tame_below n (open_fd fd).
Proof. intros p _. unfold run, open_fd. by destruct (0 <=? fd). Qed.

Lemma tame_forked (n : nat) (pid : Z) : tame_below n (forked pid).
Proof.
  intros p _. unfold run, forked.
  by destruct (0 <? pid), (pid =? 0).
Qed.

Lemma tame_close (n : nat) (fd : Z) : tame_below n (close fd).
Proof. intros p _. by split. Qed.

Lemma tame_log (n : nat) (e : event) : tame_below n (log e).
Proof. intros p _. by split. Qed.

Lemma tame_perror (n : nat) (msg : string) : tame_below n (perror msg).
Proof. intros p _. by split. Qed.

Lemma tame_exit {A} (n : nat) (status : Z) : tame_below n (@exit A status).
Proof. intros p _. by split. Qed.

#[local] Hint Resolve tame_ret tame_syscall tame_read tame_write tame_open_fd
  tame_forked
  tame_close tame_log tame_perror tame_exit : tame.

Ltac tame :=
  repeat first
    [ solve [auto with tame]
    | apply tame_when
    | apply tame_bind; [|intros ?] ].

Lemma tame_error {A} (n : nat) (msg : string) : tame_below n (@error A msg).
Proof. unfold error. tame. Qed.

#[local] Hint Resolve tame_error : tame.

Lemma tame_dostuff (n : nat) (fd : Z) : tame_below n (dostuff fd).
Proof.
  unfold dostuff, printf. apply tame_bind; [tame|].
  intros [k buf]. tame.
Qed.

Lemma tame_worker (n : nat) (sockfd newfd : Z) :
  tame_below n (worker sockfd newfd).
Proof. unfold worker. pose proof (tame_dostuff n newfd). tame. Qed.

(** What follows the [accept] in one turn of the loop. *)
Lemma tame_dispatch (n : nat) (sockfd newfd : Z) :
  tame_below n
    (when (newfd <? 0) (error "ERROR on accept") ;;
     pid ← fork;
     when (pid <? 0) (error "ERROR on fork") ;;
     if pid =? 0 then worker sockfd newfd else close newfd).
Proof.
  pose proof (tame_worker n sockfd newfd). unfold fork.
  apply tame_bind; [tame|]. intros _.
  apply tame_bind; [tame|]. intros pid.
  apply tame_bind; [tame|]. intros _.
  destruct (pid =? 0); tame.
Qed.

Lemma tame_serve (n : nat) (sockfd : Z) : tame_below n (serve sockfd).
Proof.
  unfold serve, accept. apply tame_bind; [tame|].
  intros newfd. apply tame_dispatch.
Qed.

(** An [accept] that returns has used up a reply. *)
Lemma accept_consumes (sockfd newfd : Z) (p p' : proc) :
  run (accept sockfd) p = (Ret newfd, p') ->
  (length (script p') < length (script p))%nat.
Proof.
  unfold accept, syscall, open_fd. unfold run, mbind, M_bind, mret, M_ret.
  destruct (script p) as [|[v|e|bs] s] eqn:Hs; try discriminate;
    intros [= <- <-].
  - destruct (0 <=? v); simpl; lia.
  - simpl. lia.
Qed.

(** A turn of the loop that comes back has used up a reply. *)
Lemma serve_consumes (sockfd : Z) (p p' : proc) (a : unit) :
  run (serve sockfd) p = (Ret a, p') ->
  (length (script p') < length (script p))%nat.
Proof.
  unfold serve. intros Hrun.
  unfold run in Hrun. unfold mbind at 1, M_bind at 1 in Hrun.
  destruct (accept sockfd p) as [[newfd|s| |] q] eqn:Ha; try discriminate.
  apply accept_consumes in Ha.
  destruct (tame_dispatch (S (length (script q))) sockfd newfd q) as [_ Hlen];
    [lia|].
  unfold run in Hlen. rewrite Hrun in Hlen. simpl in Hlen. lia.
Qed.

Lemma tame_accept_loop (fuel : nat) (sockfd : Z) :
  tame_below fuel (accept_loop fuel sockfd).
Proof.
  induction fuel as [|fuel IH]; intros p Hp; [lia|].
  rewrite accept_loop_turn.
  destruct (tame_serve (S fuel) sockfd p Hp) as [Hfuel Hlen].
  destruct (run (serve sockfd) p) as [[a|s| |] q] eqn:Hrun;
    simpl in Hfuel, Hlen |- *; try done.
  apply serve_consumes in Hrun.
  destruct (IH q) as [Hfuel' Hlen']; [lia|]. split; [done|lia].
Qed.

(** The bound on the [while (1)] of [main] is never what stops a run:
    with more fuel than the script has replies, [main] ends because the
    process exits or because a call is left pending. *)
Lemma main_fuel_suffices (fuel : nat) (argc : Z) (argv : list string)
    (s : list reply) :
  (length s < fuel)%nat ->
  fst (run (main fuel argc argv) (boot s)) <> OutOfFuel.
Proof.
  intros Hs.
  assert (Hmain : tame_below fuel (main fuel argc argv)).
  { pose proof (tame_accept_loop fuel).
    unfold main, signal, fprintf_stderr, socket, bind, listen. tame. }
  by apply (Hmain (boot s)).
Qed.

(** * More of the code *)

(** ** fork_server.c: starting up *)

Lemma bind_failure_is_fatal_witness :
  fst (run (main 1 2 ["fork_server"; "8080"]%string)
         (boot [Val 3; Err EADDRINUSE]))
  = Exited 1.
Proof.
  rewrite (bind_failure_is_fatal 1 2 ["fork_server"; "8080"]%string 3
             EADDRINUSE []) by lia.
  reflexivity.
Defined.

(** X1.  When [socket] fails, [main] reports [ERROR opening socket]
    with the [errno] of the call and exits with status 1; it has no
    descriptor open and makes no other call to the kernel. *)
Theorem socket_failure_is_fatal (fuel : nat) (argc : Z) (argv : list string)
    (e : Z) (rest : list reply) :
  2 <= argc ->
  let r := run (main fuel argc argv) (boot (Err e :: rest)) in
  fst r = Exited 1
  /\ trace (snd r)
     = [Signal SIGCHLD "SigCatcher";
        Sys (Socket AF_INET SOCK_STREAM 0) (Err e);
        Perror "ERROR opening socket" e; Exit 1]
  /\ fds (snd r) = ∅
  /\ script (snd r) = rest.
Proof.
  intros Hargc r. subst r.
  unfold main, socket, syscall, open_fd, when, signal, log.
  unfold run, mbind, M_bind, mret, M_ret. simpl_proc.
  rewrite (proj2 (Z.ltb_ge argc 2)) by lia. simpl_proc.
  by repeat split.
Qed.

Lemma socket_failure_is_fatal_witness :
  fst (run (main 1 2 ["fork_server"; "8080"]%string) (boot [Err EMFILE]))
  = Exited 1.
Proof.
  pose proof (socket_failure_is_fatal 1 2 ["fork_server"; "8080"]%string
                EMFILE []) as H.
  destruct H as [H _]; [lia|]. exact H.
Defined.

(** ** fork_server.c: the loop has no way out *)

Lemma never_returns_l {A B} (m : M A) (f : A -> M B) :
  never_returns m -> never_returns (m ≫= f).
Proof.
  intros Hm p b. specialize (Hm p). unfold run, mbind, M_bind in *.
  destruct (m p) as [[a|s| |] q]; simpl in *; try done. by destruct (Hm a).
Qed.

Lemma never_returns_r {A B} (m : M A) (f : A -> M B) :
  (forall a, never_returns (f a)) -> never_returns (m ≫= f).
Proof.
  intros Hf p b. unfold run, mbind, M_bind.
  destruct (m p) as [[a|s| |] q]; simpl; try done. apply Hf.
Qed.

Lemma accept_loop_never_returns (fuel : nat) (sockfd : Z) :
  never_returns (accept_loop fuel sockfd).
Proof.
  induction fuel as [|fuel IH]; intros p a; [done|].
  rewrite accept_loop_turn.
  destruct (run (serve sockfd) p) as [[[]|s| |] q]; simpl;
    [apply IH|done..].
Qed.

Lemma main_never_returns (fuel : nat) (argc : Z) (argv : list string) :
  never_returns (main fuel argc argv).
Proof.
  unfold main. do 7 (apply never_returns_r; intros ?).
  apply never_returns_l, accept_loop_never_returns.
Qed.

(** X3.  The [return 0] that ends [main] is never reached.  Whatever
    the kernel answers, a run of the server ends in one of two ways: the
    process exits, or one of its calls does not return. *)
Theorem server_exits_or_waits (fuel : nat) (argc : Z) (argv : list string)
    (s : list reply) :
  (length s < fuel)%nat ->
  let r := run (main fuel argc argv) (boot s) in
  fst r = Blocked \/ exists status, fst r = Exited status.
Proof.
  intros Hs r. subst r.
  pose proof (main_fuel_suffices fuel argc argv s Hs) as Hfuel.
  pose proof (main_never_returns fuel argc argv (boot s)) as Hret.
  destruct (fst (run (main fuel argc argv) (boot s))) as [a|status| |];
    [by destruct (Hret a)|by right; exists status|by left|done].
Qed.

Lemma server_exits_or_waits_witness :
  let r := run (main 8 2 ["fork_server"; "8080"]%string)
             (boot [Val 3; Val 0; Val 0; Val 4; Val 100]) in
  fst r = Blocked \/ exists status, fst r = Exited status.
Proof.
  apply (server_exits_or_waits 8 2 ["fork_server"; "8080"]%string
           [Val 3; Val 0; Val 0; Val 4; Val 100]).
  simpl. lia.
Defined.

(** ** fork_server.c: the child *)

Lemma forks_app (t u : list event) : forks (t ++ u) = forks t ++ forks u.
Proof. apply omap_app. Qed.

Lemma reads_app (t u : list event) : reads (t ++ u) = reads t ++ reads u.
Proof. apply omap_app. Qed.

(** The course of the child's branch, whatever the kernel answers: it
    closes the listening socket first, and after that neither accepts
    nor forks, reads once at most and writes once at most. *)
Lemma worker_course (p : proc) (sockfd newfd : Z) :
  let r := run (worker sockfd newfd) p in
  (fst r = Blocked \/ fst r = Exited 0 \/ fst r = Exited 1)
  /\ exists evs,
       trace (snd r) = trace p ++ Close sockfd :: evs
       /\ accepts evs = [] /\ forks evs = []
       /\ (length (reads evs) <= 1)%nat /\ (length (sent evs) <= 1)%nat.
Proof.
  unfold_calls. simpl_proc.
  destruct (script p) as [|[v|e|bs] [|[v'|e'|bs'] rest]];
    simpl_proc; change (Z.to_nat (256 - 1)) with 255%nat;
    rewrite ?length_not_negative; simpl_proc;
    try change (-1 <? 0) with true; simpl_proc;
    try destruct (v' <? 0); try destruct (e' =? EPIPE); simpl_proc;
    try change (-1 <? 0) with true; simpl_proc;
    (split; [auto|]); rewrite <- ?app_assoc;
    (eexists; split; [reflexivity|]); simpl; auto with lia.
Qed.

(** X4.  In the child, the turn of the loop in which [fork] returned 0
    is the last: whatever the script holds next, further connections
    included, the process makes no second [accept] and no second
    [fork].  It ends by [exit], status 0 or 1, unless one of its calls
    stays pending. *)
Theorem child_never_accepts (p : proc) (fuel : nat) (sockfd newfd : Z)
    (rest : list reply) :
  0 <= newfd ->
  let r := run (accept_loop (S fuel) sockfd)
             (set_script (Val newfd :: Val 0 :: rest) p) in
  (fst r = Blocked \/ fst r = Exited 0 \/ fst r = Exited 1)
  /\ accepts (trace (snd r)) = accepts (trace p) ++ [sockfd]
  /\ forks (trace (snd r)) = forks (trace p) ++ [Val 0].
Proof.
  intros Hfd r. subst r. rewrite accept_loop_turn, serve_child by done.
  match goal with |- context [run (worker sockfd newfd) ?q] =>
    destruct (worker_course q sockfd newfd)
      as (Hend & evs & Htr & Hacc & Hfork & _) end.
  match type of Hend with context [run (worker sockfd newfd) ?q] =>
    destruct (run (worker sockfd newfd) q) as [[[]|status| |] q'] end;
    simpl in Hend, Htr |- *;
    try (destruct Hend as [Hend|[Hend|Hend]]; discriminate).
  all: split; [done|]; rewrite Htr; simpl_proc.
  all: rewrite !accepts_app, !forks_app; simpl.
  all: change (accepts (Close sockfd :: evs)) with (accepts evs).
  all: change (forks (Close sockfd :: evs)) with (forks evs).
  all: by rewrite Hacc, Hfork, !app_nil_r.
Qed.

Lemma child_never_accepts_witness :
  accepts (trace (snd (run (accept_loop 3 3)
    (set_script [Val 4; Val 0; Bytes (list_byte_of_string "hello"); Val 18;
                 Val 5; Val 100] (opening 3 (boot []))))))
  = [3].
Proof.
  pose proof (child_never_accepts (opening 3 (boot [])) 2 3 4
                [Bytes (list_byte_of_string "hello"); Val 18; Val 5; Val 100])
    as H.
  destruct H as (_ & H & _); [lia|]. exact H.
Defined.

(** ** fork_server.c: who exits with status 0 *)

Create HintDb child.

Lemma zero_is_child_ret {A} (a : A) : zero_is_child (mret a).
Proof. intros p H. discriminate. Qed.

Lemma zero_is_child_bind {A B} (m : M A) (f : A -> M B) :
  zero_is_child m -> (forall a, zero_is_child (f a)) ->
  zero_is_child (m ≫= f).
Proof.
  intros Hm Hf p. specialize (Hm p). unfold run, mbind, M_bind in *.
  destruct (m p) as [[a|s| |] q]; simpl in *;
    [apply Hf| |discriminate|discriminate].
  intros [= ->]. by apply Hm.
Qed.

Lemma zero_is_child_when (b : bool) (m : M unit) :
  zero_is_child m -> zero_is_child (when b m).
Proof. destruct b; [done|]. intros _. apply zero_is_child_ret. Qed.

Lemma zero_is_child_syscall (c : call) : zero_is_child (syscall c).
Proof.
  intros p. unfold run, syscall.
  by destruct (script p) as [|[v|e|bs] s].
Qed.

Lemma zero_is_child_open_fd (fd : Z) : zero_is_child (open_fd fd).
Proof. intros p H. discriminate. Qed.

Lemma zero_is_child_log (e : event) : zero_is_child (log e).
Proof. intros p H. discriminate. Qed.

Lemma zero_is_child_error {A} (msg : string) : zero_is_child (@error A msg).
Proof. intros p H. discriminate. Qed.

Lemma zero_is_child_exit_1 {A} : zero_is_child (@exit A 1).
Proof. intros p H. discriminate. Qed.

#[local] Hint Resolve zero_is_child_ret zero_is_child_syscall
  zero_is_child_open_fd zero_is_child_log zero_is_child_error
  zero_is_child_exit_1 : child.

Ltac child :=
  repeat first
    [ solve [auto with child]
    | apply zero_is_child_when
    | apply zero_is_child_bind; [|intros ?] ].

Lemma proc_eta (p : proc) : p = set_script (script p) p.
Proof. by destruct p. Qed.

(** A turn of the loop exits with status 0 only through the child's
    branch. *)
Lemma zero_is_child_serve (sockfd : Z) : zero_is_child (serve sockfd).
Proof.
  intros p. rewrite (proc_eta p). generalize (script p) as s. intros s.
  destruct s as [|[v|e|bs] s]; [discriminate| | |discriminate].
  - destruct (Z.ltb_spec v 0) as [Hv|Hv].
    { unfold serve, accept, open_fd, syscall, when.
      unfold run, mbind, M_bind, mret, M_ret. simpl_proc.
      rewrite (proj2 (Z.leb_gt 0 v) Hv), (negative v Hv). discriminate. }
    destruct s as [|[pid|e'|bs'] s].
    + unfold serve, accept, fork, open_fd, syscall, when.
      unfold run, mbind, M_bind, mret, M_ret. simpl_proc.
      rewrite (proj2 (Z.leb_le 0 v) Hv), (not_negative v Hv). discriminate.
    + destruct (Z.lt_trichotomy pid 0) as [Hpid|[->|Hpid]].
      * unfold serve, accept, fork, forked, open_fd, syscall, when.
        unfold run, mbind, M_bind, mret, M_ret. simpl_proc.
        rewrite (proj2 (Z.leb_le 0 v) Hv), (not_negative v Hv). simpl_proc.
        rewrite (proj2 (Z.ltb_ge 0 pid)) by lia.
        destruct (Z.eqb_spec pid 0) as [->|_]; [lia|].
        rewrite (negative pid Hpid). discriminate.
      * rewrite serve_child by done. intros _.
        match goal with |- context [run (worker sockfd v) ?q] =>
          destruct (worker_course q sockfd v) as (_ & evs & -> & _) end.
        simpl_proc. rewrite !forks_app.
        apply elem_of_app. left. apply elem_of_app. right. by left.
      * rewrite serve_parent by done. discriminate.
    + rewrite serve_fork_error by done. discriminate.
    + unfold serve, accept, fork, open_fd, syscall, when.
      unfold run, mbind, M_bind, mret, M_ret. simpl_proc.
      rewrite (proj2 (Z.leb_le 0 v) Hv), (not_negative v Hv). discriminate.
  - rewrite serve_accept_error. discriminate.
Qed.

Lemma zero_is_child_accept_loop (fuel : nat) (sockfd : Z) :
  zero_is_child (accept_loop fuel sockfd).
Proof.
  induction fuel as [|fuel IH]; intros p; [discriminate|].
  rewrite accept_loop_turn.
  pose proof (zero_is_child_serve sockfd p) as Hserve.
  destruct (run (serve sockfd) p) as [[[]|s| |] q]; simpl in *;
    [apply IH|exact Hserve|discriminate|discriminate].
Qed.

(** X5.  The server itself never exits with status 0.  When a run of
    [main] ends by [exit(0)], one of its [fork]s had returned 0: the
    process is a child, and every exit of the parent is a failure
    exit. *)
Theorem only_the_child_exits_zero (fuel : nat) (argc : Z)
    (argv : list string) (s : list reply) :
  let r := run (main fuel argc argv) (boot s) in
  fst r = Exited 0 -> Val 0 ∈ forks (trace (snd r)).
Proof.
  intros r. subst r.
  assert (Hmain : zero_is_child (main fuel argc argv)).
  { pose proof (zero_is_child_accept_loop fuel).
    unfold main, signal, fprintf_stderr, socket, bind, listen. child. }
  apply Hmain.
Qed.

Lemma only_the_child_exits_zero_witness :
  Val 0 ∈ forks (trace (snd (run (main 2 2 ["fork_server"; "8080"]%string)
    (boot [Val 3; Val 0; Val 0; Val 4; Val 0;
           Bytes (list_byte_of_string "hello"); Val 18])))).
Proof.
  apply (only_the_child_exits_zero 2 2 ["fork_server"; "8080"]%string
           [Val 3; Val 0; Val 0; Val 4; Val 0;
            Bytes (list_byte_of_string "hello"); Val 18]).
  reflexivity.
Defined.

(** ** fork_server.c: the parent, connection after connection *)

Lemma reopen_close (fd : Z) (F : gset Z) :
  fd ∉ F -> ({[fd]} ∪ F) ∖ {[fd]} = F.
Proof.
  intros Hfd. apply set_eq. intros x.
  rewrite elem_of_difference, elem_of_union, !elem_of_singleton.
  split; [intros [[->|Hx] Hx']; [contradiction|exact Hx]|].
  intros Hx. split; [by right|]. intros ->. contradiction.
Qed.

(** The parent's turns for a series of connections, each dispatched
    with success, come down to a change of state: its descriptors as
    before, one more child for each connection. *)
Lemma accept_loop_dispatches (sockfd : Z) (cs : list (Z * Z)) :
  forall (p : proc) (fuel : nat) (rest : list reply),
  Forall (fun c => 0 <= c.1 /\ (c.1 ∉ fds p) /\ 0 < c.2) cs ->
  exists q,
    run (accept_loop (length cs + fuel) sockfd)
      (set_script (dispatches cs ++ rest) p)
    = run (accept_loop fuel sockfd) (set_script rest q)
    /\ fds q = fds p
    /\ children q = children p ++ cs.*2
    /\ zombies q = zombies p
    /\ errno q = errno p
    /\ trace q = trace p ++ dispatch_events sockfd cs.
Proof.
  induction cs as [|[fd pid] cs IH]; intros p fuel rest Hcs.
  - exists p. simpl. by rewrite !app_nil_r.
  - apply Forall_cons in Hcs as [(Hfd & Hnew & Hpid) Hcs]. simpl in Hfd, Hnew, Hpid.
    change (dispatches ((fd, pid) :: cs) ++ rest)
      with (Val fd :: Val pid :: (dispatches cs ++ rest)).
    change (length ((fd, pid) :: cs) + fuel)%nat
      with (S (length cs + fuel)).
    rewrite accept_loop_turn, serve_parent by done.
    set (q1 := closing fd
                 (set_children (children p ++ [pid])
                    (emit (Sys Fork (Val pid))
                       (opening fd (emit (Sys (Accept sockfd) (Val fd)) p))))).
    assert (Hfds : fds q1 = fds p) by (by apply reopen_close).
    destruct (IH q1 fuel rest) as (q & Hrun & Hq1 & Hq2 & Hq3 & Hq4 & Hq5).
    { eapply Forall_impl; [exact Hcs|]. intros c (? & ? & ?).
      by rewrite Hfds. }
    exists q. split; [exact Hrun|]. rewrite Hq1, Hq2, Hq3, Hq4, Hq5.
    subst q1. simpl_proc. rewrite <- !app_assoc.
    repeat split; try done.
Qed.

(** X6.  The parent leaks nothing.  After any number of connections,
    each accepted on a descriptor that was free and each handed to a
    child, the server has the descriptors it had before the first of
    them, one child for each connection, and is waiting in [accept]
    for the next: it has closed every connected socket, in the order
    of arrival, and nothing else. *)
Theorem parent_serves_every_connection (p : proc) (sockfd : Z)
    (cs : list (Z * Z)) (fuel : nat) :
  Forall (fun c => 0 <= c.1 /\ (c.1 ∉ fds p) /\ 0 < c.2) cs ->
  (length cs < fuel)%nat ->
  let r := run (accept_loop fuel sockfd) (set_script (dispatches cs) p) in
  fst r = Blocked
  /\ fds (snd r) = fds p
  /\ children (snd r) = children p ++ cs.*2
  /\ trace (snd r)
     = trace p ++ dispatch_events sockfd cs ++ [Pending (Accept sockfd)]
  /\ closed (dispatch_events sockfd cs) = cs.*1.
Proof.
  intros Hcs Hfuel r. subst r.
  replace fuel with (length cs + S (fuel - S (length cs)))%nat by lia.
  destruct (accept_loop_dispatches sockfd cs p (S (fuel - S (length cs))) [] Hcs)
    as (q & Hrun & Hq1 & Hq2 & _ & _ & Hq5).
  rewrite app_nil_r in Hrun. rewrite Hrun.
  rewrite accept_loop_turn, serve_accept_pending. simpl_proc.
  rewrite Hq1, Hq2, Hq5, <- app_assoc. repeat split.
  clear. induction cs as [|[fd pid] cs IH]; [done|].
  change (closed (dispatch_events sockfd ((fd, pid) :: cs)))
    with (fd :: closed (dispatch_events sockfd cs)).
  by rewrite IH.
Qed.

Lemma parent_serves_every_connection_witness :
  let r := run (accept_loop 4 3)
             (set_script (dispatches [(4, 100); (4, 101); (5, 102)])
                (opening 3 (boot []))) in
  fst r = Blocked
  /\ fds (snd r) = fds (opening 3 (boot []))
  /\ children (snd r) = [100; 101; 102]
  /\ trace (snd r)
     = dispatch_events 3 [(4, 100); (4, 101); (5, 102)] ++ [Pending (Accept 3)]
  /\ closed (dispatch_events 3 [(4, 100); (4, 101); (5, 102)]) = [4; 4; 5].
Proof.
  apply (parent_serves_every_connection (opening 3 (boot [])) 3
           [(4, 100); (4, 101); (5, 102)] 4).
  - repeat constructor; simpl; try lia;
      rewrite elem_of_union, elem_of_singleton;
      (intros [H|H]; [discriminate|by apply not_elem_of_empty in H]).
  - simpl. lia.
Defined.

(** X7.  The server lives until the first failure.  After any number of
    connections dispatched with success, an [accept] that fails ends
    the server at once, with status 1, and the children it has made are
    left behind without a parent. *)
Theorem server_dies_at_first_failure (p : proc) (sockfd e : Z)
    (cs : list (Z * Z)) (fuel : nat) (rest : list reply) :
  Forall (fun c => 0 <= c.1 /\ (c.1 ∉ fds p) /\ 0 < c.2) cs ->
  (length cs < fuel)%nat ->
  let r := run (accept_loop fuel sockfd)
             (set_script (dispatches cs ++ Err e :: rest) p) in
  fst r = Exited 1
  /\ children (snd r) = children p ++ cs.*2
  /\ trace (snd r)
     = trace p ++ dispatch_events sockfd cs
         ++ [Sys (Accept sockfd) (Err e); Perror "ERROR on accept" e; Exit 1]
  /\ script (snd r) = rest.
Proof.
  intros Hcs Hfuel r. subst r.
  replace fuel with (length cs + S (fuel - S (length cs)))%nat by lia.
  destruct (accept_loop_dispatches sockfd cs p (S (fuel - S (length cs)))
              (Err e :: rest) Hcs)
    as (q & Hrun & _ & Hq2 & _ & _ & Hq5).
  rewrite Hrun, accept_loop_turn, serve_accept_error. simpl_proc.
  by rewrite Hq2, Hq5, <- !app_assoc.
Qed.

Lemma server_dies_at_first_failure_witness :
  fst (run (accept_loop 3 3)
         (set_script (dispatches [(4, 100); (4, 101)] ++ [Err EMFILE; Val 4])
            (opening 3 (boot []))))
  = Exited 1.
Proof.
  pose proof (server_dies_at_first_failure (opening 3 (boot [])) 3 EMFILE
                [(4, 100); (4, 101)] 3 [Val 4]) as H.
  destruct H as [H _].
  - repeat constructor; simpl; try lia;
      rewrite elem_of_union, elem_of_singleton;
      (intros [H|H]; [discriminate|by apply not_elem_of_empty in H]).
  - simpl. lia.
  - exact H.
Defined.

(** ** fork_server.c: what the Worker shows of a request *)

Lemma stdout_app (t u : list event) : stdout (t ++ u) = stdout t ++ stdout u.
Proof. unfold stdout. by rewrite omap_app, join_app. Qed.

Lemma c_str_app_nul (l r : list byte) : c_str (l ++ x00 :: r) = c_str l.
Proof.
  induction l as [|b l IH]; [done|].
  simpl. destruct (Byte.eqb b x00); [done|]. by rewrite IH.
Qed.

Lemma c_str_nul_free (l : list byte) :
  Forall (fun b => b <> x00) l -> c_str l = l.
Proof.
  induction 1 as [|b l Hb _ IH]; [done|].
  simpl. destruct (Byte.eqb b x00) eqn:Heq.
  - by apply Byte.byte_dec_bl in Heq.
  - by rewrite IH.
Qed.

Lemma c_str_has_no_nul (l : list byte) : Forall (fun b => b <> x00) (c_str l).
Proof.
  induction l as [|b l IH]; [constructor|].
  simpl. destruct (Byte.eqb b x00) eqn:Heq; constructor; [|done].
  intros ->. by vm_compute in Heq.
Qed.

Lemma c_str_length (l : list byte) : (length (c_str l) <= length l)%nat.
Proof.
  induction l as [|b l IH]; [done|].
  simpl. destruct (Byte.eqb b x00); simpl; lia.
Qed.

Lemma c_str_filled (bs : list byte) : c_str (filled bs) = c_str (take 255 bs).
Proof.
  unfold filled, bzero. rewrite drop_replicate.
  assert (Hk : (length (take 255 bs) <= 255)%nat) by (rewrite length_take; lia).
  replace (256 - length (take 255 bs))%nat
    with (S (255 - length (take 255 bs))) by lia.
  apply c_str_app_nul.
Qed.

Lemma render_fmt_msg (arg : list byte) :
  render fmt_msg [arg]
  = list_byte_of_string "Message from client: " ++ c_str arg ++ ["010"%byte].
Proof. reflexivity. Qed.

(** X8.  What [dostuff] puts on the standard output for a request is
    the line [Message from client: ] followed by the request as a C
    string, that is, by the first 255 bytes of the request cut at their
    first NUL byte, and a newline. *)
Theorem dostuff_shows_request (p : proc) (fd : Z) (bs : list byte)
    (rest : list reply) :
  let p' := snd (run (dostuff fd) (set_script (Bytes bs :: rest) p)) in
  stdout (trace p')
  = stdout (trace p)
    ++ list_byte_of_string "Message from client: "
    ++ c_str (take 255 bs) ++ ["010"%byte].
Proof.
  intros p'. subst p'.
  destruct (dostuff_after_read p fd bs rest) as (tail & -> & _ & _ & Hp).
  rewrite stdout_app. f_equal.
  change (stdout (Sys (Read fd 255) (Bytes (take 255 bs))
                    :: Printf fmt_msg (filled bs) :: tail))
    with (render fmt_msg [filled bs] ++ stdout tail).
  rewrite render_fmt_msg, c_str_filled, <- !app_assoc. do 3 f_equal.
  unfold stdout. unfold printed in Hp.
  clear -Hp. induction tail as [|[] tail IH]; simpl in *; try done; auto.
Qed.

(** X9.  A request of at most 255 bytes none of which is NUL is shown
    whole, byte for byte. *)
Theorem dostuff_shows_text_whole (p : proc) (fd : Z) (bs : list byte)
    (rest : list reply) :
  (length bs <= 255)%nat -> Forall (fun b => b <> x00) bs ->
  let p' := snd (run (dostuff fd) (set_script (Bytes bs :: rest) p)) in
  stdout (trace p')
  = stdout (trace p)
    ++ list_byte_of_string "Message from client: " ++ bs ++ ["010"%byte].
Proof.
  intros Hlen Hnul p'. subst p'.
  destruct (dostuff_after_read p fd bs rest) as (tail & -> & _ & _ & Hp).
  rewrite stdout_app. f_equal.
  change (stdout (Sys (Read fd 255) (Bytes (take 255 bs))
                    :: Printf fmt_msg (filled bs) :: tail))
    with (render fmt_msg [filled bs] ++ stdout tail).
  rewrite render_fmt_msg, c_str_filled, take_ge, c_str_nul_free by done.
  rewrite <- !app_assoc. do 3 f_equal.
  unfold stdout. unfold printed in Hp.
  clear -Hp. induction tail as [|[] tail IH]; simpl in *; try done; auto.
Qed.

Lemma dostuff_shows_text_whole_witness :
  stdout (trace (snd (run (dostuff 4)
    (set_script [Bytes (list_byte_of_string "hello"); Val 18] (boot [])))))
  = list_byte_of_string "Message from client: hello" ++ ["010"%byte].
Proof.
  apply (dostuff_shows_text_whole (boot []) 4 (list_byte_of_string "hello")
           [Val 18]).
  - simpl. lia.
  - repeat constructor; discriminate.
Defined.

(** X10.  A request longer than 255 bytes is cut.  The Worker reads its
    first 255 bytes in its one [read], answers with the reply, closes
    and exits with status 0; the bytes after the 255th are never
    read. *)
Theorem long_request_is_cut (p : proc) (sockfd newfd : Z) (bs : list byte)
    (v : Z) (rest : list reply) :
  (255 < length bs)%nat -> 0 <= v ->
  let r := run (worker sockfd newfd)
             (set_script (Bytes bs :: Val v :: rest) p) in
  fst r = Exited 0
  /\ trace (snd r)
     = trace p ++ [Close sockfd;
                   Sys (Read newfd 255) (Bytes (take 255 bs));
                   Printf fmt_msg (take 255 bs ++ [x00]);
                   Sys (Write newfd ack) (Val v);
                   Close newfd; Exit 0]
  /\ length (take 255 bs) = 255%nat
  /\ drop 255 bs <> [].
Proof.
  intros Hlen Hv r. subst r. rewrite worker_served by done. simpl_proc.
  assert (Hk : length (take 255 bs) = 255%nat) by (rewrite length_take; lia).
  assert (Hfill : filled bs = take 255 bs ++ [x00]).
  { unfold filled, bzero. by rewrite Hk. }
  rewrite Hfill, <- !app_assoc. repeat split; [done|].
  intros Hdrop. apply (f_equal length) in Hdrop.
  rewrite length_drop in Hdrop. simpl in Hdrop. lia.
Qed.

Lemma long_request_is_cut_witness :
  fst (run (worker 3 4)
         (set_script [Bytes (replicate 300 "a"%byte); Val 18] (boot [])))
  = Exited 0.
Proof.
  pose proof (long_request_is_cut (boot []) 3 4 (replicate 300 "a"%byte) 18 [])
    as H.
  destruct H as [H _]; [rewrite length_replicate; lia|lia|]. exact H.
Defined.

(** ** fork_server.c: the handler, once more *)

(** A run of [SigCatcher] from start to end. *)
Lemma SigCatcher_run (zs : list Z) :
  forall (p : proc) (fuel : nat) (signo : Z),
  zombies p = zs -> Forall (fun z => 0 < z) zs -> (length zs < fuel)%nat ->
  let r := run (SigCatcher fuel signo) p in
  fst r = Ret tt
  /\ zombies (snd r) = []
  /\ children (snd r) = children p
  /\ fds (snd r) = fds p
  /\ script (snd r) = script p
  /\ errno (snd r) = match children p with [] => ECHILD | _ :: _ => errno p end
  /\ trace (snd r)
     = trace p ++ map (Waitpid (-1) WNOHANG) zs
         ++ [Waitpid (-1) WNOHANG
               (match children p with [] => -1 | _ :: _ => 0 end)].
Proof.
  induction zs as [|z zs IH]; intros p fuel signo Hz Hpos Hfuel r; subst r;
    (destruct fuel as [|fuel]; [simpl in Hfuel; lia|]).
  - rewrite SigCatcher_stops by done.
    destruct (children p) eqn:Hc; simpl_proc; by rewrite ?Hz, ?Hc.
  - apply Forall_cons in Hpos as [Hz0 Hpos].
    rewrite (SigCatcher_reaps p fuel signo z zs Hz Hz0).
    destruct (IH (emit (Waitpid (-1) WNOHANG z) (set_zombies zs p)) fuel signo)
      as (Hr & Hzs & Hch & Hfd & Hsc & Herr & Htr);
      [done|done|simpl in Hfuel; lia|].
    repeat split; try done.
    rewrite Htr. simpl_proc. by rewrite <- app_assoc.
Qed.

(** X11.  Reaping is idempotent.  A second invocation of [SigCatcher]
    right after the first finds nothing to reclaim: it makes one call
    of [waitpid], which returns what the last call of the first
    invocation returned, and changes no table. *)
Theorem SigCatcher_twice (p : proc) (fuel fuel' : nat) (signo : Z) :
  Forall (fun z => 0 < z) (zombies p) ->
  (length (zombies p) < fuel)%nat -> (0 < fuel')%nat ->
  let once := run (SigCatcher fuel signo) p in
  let twice := run (SigCatcher fuel signo ;; SigCatcher fuel' signo) p in
  fst twice = Ret tt
  /\ zombies (snd twice) = []
  /\ children (snd twice) = children (snd once)
  /\ fds (snd twice) = fds (snd once)
  /\ trace (snd twice)
     = trace (snd once)
       ++ [Waitpid (-1) WNOHANG
             (match children p with [] => -1 | _ :: _ => 0 end)].
Proof.
  intros Hpos Hfuel Hfuel' once twice. subst once twice.
  destruct (SigCatcher_run (zombies p) p fuel signo eq_refl Hpos Hfuel)
    as (Hr & Hzs & Hch & Hfd & _ & _ & Htr).
  unfold run in *. unfold mbind, M_bind.
  destruct (SigCatcher fuel signo p) as [o q]. simpl in *. subst o.
  destruct (SigCatcher_run [] q fuel' signo Hzs (Forall_nil_2 _) Hfuel')
    as (Hr' & Hzs' & Hch' & Hfd' & _ & _ & Htr').
  unfold run in *. rewrite Hch in Htr'.
  repeat split; done.
Qed.

Lemma SigCatcher_twice_witness :
  trace (snd (run (SigCatcher 3 SIGCHLD ;; SigCatcher 1 SIGCHLD)
                (set_zombies [101; 102] (boot []))))
  = trace (snd (run (SigCatcher 3 SIGCHLD) (set_zombies [101; 102] (boot []))))
    ++ [Waitpid (-1) WNOHANG (-1)].
Proof.
  pose proof (SigCatcher_twice (set_zombies [101; 102] (boot [])) 3 1 SIGCHLD)
    as H.
  destruct H as (_ & _ & _ & _ & H).
  - simpl. repeat constructor.
  - simpl. lia.
  - lia.
  - exact H.
Defined.

(** X12.  [SigCatcher] does not save [errno].  When the process has no
    child left running, the last [waitpid] of an invocation fails and
    the handler returns with [errno] set to ECHILD, whatever it was
    when the signal came; with a child still running, [errno] is as it
    was. *)
Theorem SigCatcher_leaves_errno (p : proc) (fuel : nat) (signo : Z) :
  Forall (fun z => 0 < z) (zombies p) ->
  (length (zombies p) < fuel)%nat ->
  errno (snd (run (SigCatcher fuel signo) p))
  = match children p with [] => ECHILD | _ :: _ => errno p end.
Proof.
  intros Hpos Hfuel.
  by destruct (SigCatcher_run (zombies p) p fuel signo eq_refl Hpos Hfuel)
    as (_ & _ & _ & _ & _ & Herr & _).
Qed.

Lemma SigCatcher_leaves_errno_witness :
  errno (snd (run (SigCatcher 2 SIGCHLD)
                (set_errno EMFILE (set_zombies [101] (boot [])))))
  = ECHILD.
Proof.
  apply (SigCatcher_leaves_errno
           (set_errno EMFILE (set_zombies [101] (boot []))) 2 SIGCHLD).
  - simpl. repeat constructor.
  - simpl. lia.
Defined.

(** ** server.c *)

(** The format [server.c] prints the request with. *)
Lemma render_here_is (arg : list byte) :
  render ("Here is the message: %s" ++ nl) [arg]
  = list_byte_of_string "Here is the message: " ++ c_str arg ++ ["010"%byte].
Proof. reflexivity. Qed.

(** [Server.main] up to its [accept], when the socket is created and
    bound: again the result of [listen] is not looked at. *)
Lemma server_reaches_accept (argc : Z) (argv : list string) (sockfd b : Z)
    (l : reply) (rest : list reply) :
  2 <= argc -> 0 <= sockfd -> 0 <= b ->
  match l with Bytes _ => False | _ => True end ->
  run (Server.main argc argv) (boot (Val sockfd :: Val b :: l :: rest))
  = run (newsockfd ← accept sockfd;
         when (newsockfd <? 0) (error "ERROR on accept") ;;
         '(n, buffer) ← read newsockfd (bzero 256) (256 - 1);
         when (n <? 0) (error "ERROR reading from socket") ;;
         printf ("Here is the message: %s" ++ nl) buffer ;;
         n ← write newsockfd "I got your message" 18;
         when (n <? 0) (error "ERROR writing to socket") ;;
         close newsockfd ;;
         close sockfd ;;
         mret 0)
      (emit (Sys (Listen sockfd 5) l)
         (set_errno (match l with Err e => e | _ => 0 end)
            (emit (Sys (Bind sockfd (serv_addr_of argv)) (Val b))
               (opening sockfd
                  (emit (Sys (Socket AF_INET SOCK_STREAM 0) (Val sockfd))
                     (boot rest)))))).
Proof.
  intros Hargc Hfd Hb Hl.
  unfold Server.main, socket, bind, listen, syscall, open_fd, when.
  unfold run, mbind, M_bind, mret, M_ret. simpl_proc.
  rewrite (proj2 (Z.ltb_ge argc 2)) by lia. simpl_proc.
  rewrite (proj2 (Z.leb_le 0 sockfd) Hfd), (not_negative sockfd Hfd).
  simpl_proc. rewrite (not_negative b Hb).
  destruct l as [v|e|bs]; [reflexivity|reflexivity|contradiction].
Qed.

(** X13.  [server.c] serves one connection and stops.  When every call
    succeeds it accepts once, reads once (at most 255 bytes), prints the
    request, writes the 18 bytes of the reply, closes the connected
    socket and then the listening socket, and returns 0 with no
    descriptor left open; what the kernel had to say next is never
    asked for. *)
Theorem server_serves_one_connection (argc : Z) (argv : list string)
    (sockfd b lv newfd v : Z) (bs : list byte) (rest : list reply) :
  2 <= argc -> 0 <= sockfd -> 0 <= b -> 0 <= newfd -> 0 <= v ->
  let r := run (Server.main argc argv)
             (boot (Val sockfd :: Val b :: Val lv :: Val newfd
                      :: Bytes bs :: Val v :: rest)) in
  fst r = Ret 0
  /\ trace (snd r)
     = [Sys (Socket AF_INET SOCK_STREAM 0) (Val sockfd);
        Sys (Bind sockfd (serv_addr_of argv)) (Val b);
        Sys (Listen sockfd 5) (Val lv);
        Sys (Accept sockfd) (Val newfd);
        Sys (Read newfd 255) (Bytes (take 255 bs));
        Printf ("Here is the message: %s" ++ nl) (filled bs);
        Sys (Write newfd ack) (Val v);
        Close newfd; Close sockfd]
  /\ fds (snd r) = ∅
  /\ script (snd r) = rest.
Proof.
  intros Hargc Hfd Hb Hnew Hv r. subst r.
  rewrite server_reaches_accept by done.
  unfold accept, read, write, syscall, open_fd, when, printf, log, close.
  unfold run, mbind, M_bind, mret, M_ret. simpl_proc.
  rewrite (proj2 (Z.leb_le 0 newfd) Hnew), (not_negative newfd Hnew).
  simpl_proc. change (Z.to_nat (256 - 1)) with 255%nat.
  rewrite length_not_negative. simpl_proc. rewrite (not_negative v Hv).
  simpl_proc. repeat split.
  apply set_eq. intros x.
  rewrite !elem_of_difference, !elem_of_union, !elem_of_singleton.
  split; [|by intros ?%not_elem_of_empty].
  intros [[[->|[->|Hx]] Hn] Hs]; [done|done|by apply not_elem_of_empty in Hx].
Qed.

Lemma server_serves_one_connection_witness :
  fst (run (Server.main 2 ["server"; "8080"]%string)
         (boot [Val 3; Val 0; Val 0; Val 4;
                Bytes (list_byte_of_string "hello"); Val 18; Val 5]))
  = Ret 0.
Proof.
  pose proof (server_serves_one_connection 2 ["server"; "8080"]%string
                3 0 0 4 18 (list_byte_of_string "hello") [Val 5]) as H.
  destruct H as [H _]; [lia..|]. exact H.
Defined.

(** X14.  [server.c] closes nothing when it fails.  A failure of
    [accept], of [read] or of [write] ends it through [error], with
    status 1: no [close] is made, and the descriptors it had opened are
    still in its table when it calls [exit].  The one failure of
    [write] that does not end so is EPIPE: the call does not return,
    SIGPIPE killing the process inside it, and nothing is reported. *)
Theorem server_fails_without_closing (argc : Z) (argv : list string)
    (sockfd b lv newfd e ew : Z) (bs : list byte) (rest : list reply) :
  2 <= argc -> 0 <= sockfd -> 0 <= b -> 0 <= newfd -> ew <> EPIPE ->
  let start := [Val sockfd; Val b; Val lv] in
  let noaccept := run (Server.main argc argv) (boot (start ++ Err e :: rest)) in
  let noread := run (Server.main argc argv)
                  (boot (start ++ Val newfd :: Err e :: rest)) in
  let nowrite := run (Server.main argc argv)
                   (boot (start ++ Val newfd :: Bytes bs :: Err ew :: rest)) in
  let nopipe := run (Server.main argc argv)
                  (boot (start ++ Val newfd :: Bytes bs :: Err EPIPE :: rest)) in
  (fst noaccept = Exited 1
   /\ complaints (trace (snd noaccept)) = ["ERROR on accept"%string]
   /\ closed (trace (snd noaccept)) = []
   /\ fds (snd noaccept) = {[sockfd]})
  /\ (fst noread = Exited 1
      /\ complaints (trace (snd noread)) = ["ERROR reading from socket"%string]
      /\ closed (trace (snd noread)) = []
      /\ fds (snd noread) = {[newfd; sockfd]})
  /\ (fst nowrite = Exited 1
      /\ complaints (trace (snd nowrite)) = ["ERROR writing to socket"%string]
      /\ closed (trace (snd nowrite)) = []
      /\ fds (snd nowrite) = {[newfd; sockfd]}
      /\ sent (trace (snd nowrite)) = [(newfd, ack)]
      /\ last (trace (snd nowrite)) = Some (Exit 1))
  /\ (fst nopipe = Blocked
      /\ complaints (trace (snd nopipe)) = []
      /\ closed (trace (snd nopipe)) = []
      /\ last (trace (snd nopipe)) = Some (Pending (Write newfd ack))).
Proof.
  intros Hargc Hfd Hb Hnew Hew start noaccept noread nowrite nopipe.
  subst start noaccept noread nowrite nopipe. cbn [app].
  rewrite !server_reaches_accept by done.
  unfold accept, read, write, syscall, open_fd, when, printf, log, close.
  unfold error, perror, exit.
  unfold run, mbind, M_bind, mret, M_ret. simpl_proc.
  change (-1 <? 0) with true. change (0 <=? -1) with false. simpl_proc.
  rewrite (proj2 (Z.leb_le 0 newfd) Hnew), (not_negative newfd Hnew).
  simpl_proc. change (-1 <? 0) with true. simpl_proc.
  change (Z.to_nat (256 - 1)) with 255%nat.
  rewrite length_not_negative. simpl_proc.
  rewrite (proj2 (Z.eqb_neq ew EPIPE) Hew).
  change (EPIPE =? EPIPE) with true. simpl_proc.
  change (-1 <? 0) with true. simpl_proc.
  repeat split; by rewrite ?union_empty_r_L.
Qed.

Lemma server_fails_without_closing_witness :
  fst (run (Server.main 2 ["server"; "8080"]%string)
         (boot [Val 3; Val 0; Val 0; Val 4; Err ECONNRESET]))
  = Exited 1.
Proof.
  pose proof (server_fails_without_closing 2 ["server"; "8080"]%string
                3 0 0 4 ECONNRESET ECONNRESET [] []) as H.
  destruct H as (_ & (H & _) & _); [lia..|discriminate|]. exact H.
Defined.

(** X15.  Started with [argc < 2], [server.c] prints
    [ERROR, no port provided] on the standard error and exits with
    status 1 without a single call to the kernel. *)
Theorem server_needs_a_port (argc : Z) (argv : list string) (s : list reply) :
  argc < 2 ->
  run (Server.main argc argv) (boot s)
  = (Exited 1,
     emit (Exit 1)
       (emit (Fprintf_stderr ("ERROR, no port provided" ++ nl)) (boot s))).
Proof.
  intros Hargc.
  unfold Server.main, when, fprintf_stderr, exit, log.
  unfold run, mbind, M_bind, mret, M_ret.
  by rewrite (proj2 (Z.ltb_lt argc 2) Hargc).
Qed.

Lemma server_needs_a_port_witness :
  fst (run (Server.main 1 ["server"%string]) (boot [])) = Exited 1.
Proof.
  by rewrite (server_needs_a_port 1 ["server"%string] []) by lia.
Defined.

(** X16.  In [server.c] too the result of [listen] is dropped: after a
    [listen] that failed the server calls [accept] all the same, and
    has reported nothing. *)
Theorem server_ignores_listen_failure (argc : Z) (argv : list string)
    (sockfd b e : Z) :
  2 <= argc -> 0 <= sockfd -> 0 <= b ->
  let r := run (Server.main argc argv) (boot [Val sockfd; Val b; Err e]) in
  fst r = Blocked
  /\ trace (snd r)
     = [Sys (Socket AF_INET SOCK_STREAM 0) (Val sockfd);
        Sys (Bind sockfd (serv_addr_of argv)) (Val b);
        Sys (Listen sockfd 5) (Err e);
        Pending (Accept sockfd)]
  /\ complaints (trace (snd r)) = [].
Proof.
  intros Hargc Hfd Hb r. subst r.
  rewrite server_reaches_accept by done. by repeat split.
Qed.

Lemma server_ignores_listen_failure_witness :
  fst (run (Server.main 2 ["server"; "8080"]%string)
         (boot [Val 3; Val 0; Err EADDRINUSE]))
  = Blocked.
Proof.
  pose proof (server_ignores_listen_failure 2 ["server"; "8080"]%string
                3 0 EADDRINUSE) as H.
  destruct H as [H _]; [lia..|]. exact H.
Defined.

(** ** client.c *)

Ltac unfold_client :=
  unfold Client.run, Client.main, Client.error, Client.when, Client.socket,
    Client.connect, Client.gethostbyname, Client.fgets, Client.open_fd,
    Client.close, Client.exit, Client.perror, Client.printf,
    Client.fprintf_stderr, Client.log, Client.read, Client.write,
    Client.syscall, mbind, Client.M_bind, mret, Client.M_ret.

Ltac simpl_client :=
  cbn [Client.fds Client.errno Client.trace Client.script Client.boot
       Client.emit Client.set_script Client.set_errno Client.set_fds fst snd].

Lemma c_str_prefix (l : list byte) : take (length (c_str l)) l = c_str l.
Proof.
  induction l as [|b l IH]; [done|].
  simpl. destruct (Byte.eqb b x00); [done|]. simpl. by rewrite IH.
Qed.

(** The buffer [fgets] leaves holds, as a C string, the message. *)
Lemma fgets_buffer_message (input : list byte) :
  let line := take 254 (Client.first_line input) in
  let buf := match line with
             | [] => bzero 256
             | _ :: _ => line ++ x00 :: drop (S (length line)) (bzero 256)
             end in
  take (Z.to_nat (Client.strlen buf)) buf = Client.message input.
Proof.
  intros line buf. unfold Client.strlen. rewrite Nat2Z.id, c_str_prefix.
  unfold Client.message. fold line. subst buf.
  destruct line as [|b line]; [done|]. apply c_str_app_nul.
Qed.

Lemma message_length (input : list byte) :
  (length (Client.message input) <= 254)%nat.
Proof.
  unfold Client.message.
  etrans; [apply c_str_length|]. rewrite length_take. lia.
Qed.

(** X17.  Started with fewer than two arguments, the client prints its
    usage line, with the name it was called by, on the standard error
    and exits with status 1 without a single call to the kernel. *)
Theorem client_usage_error (argc : Z) (argv : list string) (s : list reply) :
  argc < 3 ->
  Client.run (Client.main argc argv) (Client.boot s)
  = (Exited 1,
     Client.emit (Client.Exit 1)
       (Client.emit
          (Client.Fprintf_stderr ("usage %s hostname port" ++ nl)
             [list_byte_of_string (default ""%string (argv !! 0%nat))])
          (Client.boot s))).
Proof.
  intros Hargc. unfold_client. by rewrite (proj2 (Z.ltb_lt argc 3) Hargc).
Qed.

Lemma client_usage_error_witness :
  fst (Client.run (Client.main 2 ["client"; "localhost"]%string)
         (Client.boot []))
  = Exited 1.
Proof.
  by rewrite (client_usage_error 2 ["client"; "localhost"]%string []) by lia.
Defined.

(** X18.  When the host is not found, the client prints
    [ERROR, no such host] on the standard error and exits with status
    1.  It has made no [connect], sent nothing, called no [perror], and
    the socket it had created is still open when it exits. *)
Theorem client_unknown_host (argc : Z) (argv : list string) (sockfd h : Z)
    (rest : list reply) :
  3 <= argc -> 0 <= sockfd ->
  let r := Client.run (Client.main argc argv)
             (Client.boot (Val sockfd :: Err h :: rest)) in
  fst r = Exited 1
  /\ Client.trace (snd r)
     = [Client.Sys (Client.Socket AF_INET SOCK_STREAM 0) (Val sockfd);
        Client.Sys (Client.Gethostbyname (default ""%string (argv !! 1%nat)))
          (Err h);
        Client.Fprintf_stderr ("ERROR, no such host" ++ nl) [];
        Client.Exit 1]
  /\ Client.fds (snd r) = {[sockfd]}
  /\ Client.script (snd r) = rest.
Proof.
  intros Hargc Hfd r. subst r. unfold_client. simpl_client.
  rewrite (proj2 (Z.ltb_ge argc 3)) by lia. simpl_client.
  rewrite (proj2 (Z.leb_le 0 sockfd) Hfd), (not_negative sockfd Hfd).
  simpl_client. repeat split. by rewrite union_empty_r_L.
Qed.

Lemma client_unknown_host_witness :
  fst (Client.run (Client.main 3 ["client"; "nowhere"; "8080"]%string)
         (Client.boot [Val 3; Err 1]))
  = Exited 1.
Proof.
  pose proof (client_unknown_host 3 ["client"; "nowhere"; "8080"]%string 3 1 [])
    as H.
  destruct H as [H _]; [lia..|]. exact H.
Defined.

(** X19.  When [connect] fails, the client reports [ERROR connecting]
    with the [errno] of the call and exits with status 1: it has not
    prompted for a message and has sent nothing. *)
Theorem client_connect_failure (argc : Z) (argv : list string) (sockfd e : Z)
    (h_addr : list byte) (rest : list reply) :
  3 <= argc -> 0 <= sockfd ->
  let r := Client.run (Client.main argc argv)
             (Client.boot (Val sockfd :: Bytes h_addr :: Err e :: rest)) in
  fst r = Exited 1
  /\ Client.trace (snd r)
     = [Client.Sys (Client.Socket AF_INET SOCK_STREAM 0) (Val sockfd);
        Client.Sys (Client.Gethostbyname (default ""%string (argv !! 1%nat)))
          (Bytes h_addr);
        Client.Sys
          (Client.Connect sockfd
             {| Client.sin_family := AF_INET;
                Client.s_addr := Client.bcopy h_addr (bzero 4) (length h_addr);
                Client.sin_port :=
                  htons (atoi (default ""%string (argv !! 2%nat))) |})
          (Err e);
        Client.Perror "ERROR connecting" e;
        Client.Exit 1]
  /\ Client.sent (Client.trace (snd r)) = []
  /\ Client.stdout (Client.trace (snd r)) = []
  /\ Client.script (snd r) = rest.
Proof.
  intros Hargc Hfd r. subst r. unfold_client. simpl_client.
  rewrite (proj2 (Z.ltb_ge argc 3)) by lia. simpl_client.
  rewrite (proj2 (Z.leb_le 0 sockfd) Hfd), (not_negative sockfd Hfd).
  simpl_client. by repeat split.
Qed.

Lemma client_connect_failure_witness :
  fst (Client.run (Client.main 3 ["client"; "localhost"; "8080"]%string)
         (Client.boot [Val 3; Bytes ["127"%byte; x00; x00; x01]; Err 111]))
  = Exited 1.
Proof.
  pose proof (client_connect_failure 3 ["client"; "localhost"; "8080"]%string
                3 111 ["127"%byte; x00; x00; x01] []) as H.
  destruct H as [H _]; [lia..|]. exact H.
Defined.

(** The client up to its prompt, when the socket is created, the host
    found and the connection made. *)
Lemma client_reaches_prompt (argc : Z) (argv : list string) (sockfd c : Z)
    (h_addr : list byte) (rest : list reply) :
  3 <= argc -> 0 <= sockfd -> 0 <= c ->
  Client.run (Client.main argc argv)
    (Client.boot (Val sockfd :: Bytes h_addr :: Val c :: rest))
  = Client.run
      (buffer ← Client.fgets (bzero 256) (256 - 1);
       n ← Client.write sockfd buffer (Client.strlen buffer);
       Client.when (n <? 0) (Client.error "ERROR writing to socket") ;;
       '(n, buffer) ← Client.read sockfd (bzero 256) (256 - 1);
       Client.when (n <? 0) (Client.error "ERROR reading from socket") ;;
       Client.printf ("%s" ++ nl) [buffer] ;;
       Client.close sockfd ;;
       mret 0)
      (Client.emit (Client.Printf "Please enter the message: " [])
         (Client.emit
            (Client.Sys
               (Client.Connect sockfd
                  {| Client.sin_family := AF_INET;
                     Client.s_addr :=
                       Client.bcopy h_addr (bzero 4) (length h_addr);
                     Client.sin_port :=
                       htons (atoi (default ""%string (argv !! 2%nat))) |})
               (Val c))
            (Client.emit
               (Client.Sys
                  (Client.Gethostbyname (default ""%string (argv !! 1%nat)))
                  (Bytes h_addr))
               (Client.set_fds ({[sockfd]} ∪ ∅)
                  (Client.emit
                     (Client.Sys (Client.Socket AF_INET SOCK_STREAM 0)
                        (Val sockfd))
                     (Client.boot rest)))))).
Proof.
  intros Hargc Hfd Hc.
  unfold Client.main, Client.socket, Client.connect, Client.gethostbyname,
    Client.open_fd, Client.syscall, Client.when, Client.printf, Client.log.
  unfold Client.run, mbind, Client.M_bind, mret, Client.M_ret. simpl_client.
  rewrite (proj2 (Z.ltb_ge argc 3)) by lia. simpl_client.
  rewrite (proj2 (Z.leb_le 0 sockfd) Hfd), (not_negative sockfd Hfd).
  simpl_client. by rewrite (not_negative c Hc).
Qed.

(** X20.  What the client sends is the first line of its input, the
    newline included, cut after 254 bytes and at its first NUL byte:
    one [write] on the socket, of at most 254 bytes none of which is
    NUL, whatever the kernel answers to it and to the [read] after
    it. *)
Theorem client_sends_first_line (argc : Z) (argv : list string) (sockfd c : Z)
    (h_addr input : list byte) (rest : list reply) :
  3 <= argc -> 0 <= sockfd -> 0 <= c ->
  let r := Client.run (Client.main argc argv)
             (Client.boot (Val sockfd :: Bytes h_addr :: Val c
                             :: Bytes input :: rest)) in
  Client.sent (Client.trace (snd r)) = [(sockfd, Client.message input)]
  /\ Client.message input = c_str (take 254 (Client.first_line input))
  /\ (length (Client.message input) <= 254)%nat
  /\ Forall (fun b => b <> x00) (Client.message input).
Proof.
  intros Hargc Hfd Hc r. subst r.
  split; [|split; [done|split; [apply message_length|apply c_str_has_no_nul]]].
  rewrite client_reaches_prompt by done.
  pose proof (fgets_buffer_message input) as Hmsg. cbv zeta in Hmsg.
  unfold_client. simpl_client.
  change (Z.to_nat (256 - 1 - 1)) with 254%nat.
  change (Z.to_nat (256 - 1)) with 255%nat.
  destruct rest as [|[v|e|bs] [|[v'|e'|bs'] rest]]; simpl_client;
    rewrite ?Hmsg; simpl_client;
    try destruct (e =? EPIPE); simpl_client;
    try change (-1 <? 0) with true; simpl_client;
    try destruct (v <? 0); simpl_client;
    rewrite ?length_not_negative; simpl_client;
    try change (-1 <? 0) with true; simpl_client;
    reflexivity.
Qed.

Lemma client_sends_first_line_witness :
  Client.sent (Client.trace (snd (Client.run
    (Client.main 3 ["client"; "localhost"; "8080"]%string)
    (Client.boot [Val 3; Bytes ["127"%byte; x00; x00; x01]; Val 0;
                  Bytes (list_byte_of_string "hi" ++ ["010"%byte; "x"%byte]);
                  Val 3]))))
  = [(3, Client.message (list_byte_of_string "hi" ++ ["010"%byte; "x"%byte]))].
Proof.
  pose proof (client_sends_first_line 3 ["client"; "localhost"; "8080"]%string
                3 0 ["127"%byte; x00; x00; x01]
                (list_byte_of_string "hi" ++ ["010"%byte; "x"%byte]) [Val 3])
    as H.
  destruct H as [H _]; [lia..|]. exact H.
Defined.

Lemma render_reply (buf : list byte) :
  render ("%s" ++ nl) [buf] = c_str buf ++ ["010"%byte].
Proof. reflexivity. Qed.

(** The events of an exchange that went well, in the client. *)
Lemma client_run_success (argc : Z) (argv : list string)
    (sockfd c v : Z) (h_addr input answer : list byte) (rest : list reply) :
  3 <= argc -> 0 <= sockfd -> 0 <= c -> 0 <= v ->
  let r := Client.run (Client.main argc argv)
             (Client.boot (Val sockfd :: Bytes h_addr :: Val c
                             :: Bytes input :: Val v :: Bytes answer :: rest)) in
  fst r = Ret 0
  /\ Client.trace (snd r)
     = [Client.Sys (Client.Socket AF_INET SOCK_STREAM 0) (Val sockfd);
        Client.Sys (Client.Gethostbyname (default ""%string (argv !! 1%nat)))
          (Bytes h_addr);
        Client.Sys
          (Client.Connect sockfd
             {| Client.sin_family := AF_INET;
                Client.s_addr := Client.bcopy h_addr (bzero 4) (length h_addr);
                Client.sin_port :=
                  htons (atoi (default ""%string (argv !! 2%nat))) |})
          (Val c);
        Client.Printf "Please enter the message: " [];
        Client.Sys (Client.Fgets 255)
          (Bytes (take 254 (Client.first_line input)));
        Client.Sys (Client.Write sockfd (Client.message input)) (Val v);
        Client.Sys (Client.Read sockfd 255) (Bytes (take 255 answer));
        Client.Printf ("%s" ++ nl) [filled answer];
        Client.Close sockfd]
  /\ Client.fds (snd r) = ∅
  /\ Client.script (snd r) = rest.
Proof.
  intros Hargc Hfd Hc Hv r. subst r.
  rewrite client_reaches_prompt by done.
  pose proof (fgets_buffer_message input) as Hmsg. cbv zeta in Hmsg.
  unfold_client. simpl_client.
  change (Z.to_nat (256 - 1 - 1)) with 254%nat.
  change (Z.to_nat (256 - 1)) with 255%nat.
  rewrite Hmsg, (not_negative v Hv). simpl_client.
  rewrite length_not_negative. simpl_client.
  repeat split. by rewrite union_empty_r_L, difference_diag_L.
Qed.

(** X21.  When every call succeeds, the client prompts, sends its
    message, reads the answer once (at most 255 bytes), prints it as a
    C string on a line of its own, closes its socket and returns 0 with
    no descriptor left open. *)
Theorem client_completes_exchange (argc : Z) (argv : list string)
    (sockfd c v : Z) (h_addr input answer : list byte) (rest : list reply) :
  3 <= argc -> 0 <= sockfd -> 0 <= c -> 0 <= v ->
  let r := Client.run (Client.main argc argv)
             (Client.boot (Val sockfd :: Bytes h_addr :: Val c
                             :: Bytes input :: Val v :: Bytes answer :: rest)) in
  fst r = Ret 0
  /\ Client.stdout (Client.trace (snd r))
     = list_byte_of_string "Please enter the message: "
       ++ c_str (take 255 answer) ++ ["010"%byte]
  /\ Client.closed (Client.trace (snd r)) = [sockfd]
  /\ Client.complaints (Client.trace (snd r)) = []
  /\ Client.fds (snd r) = ∅
  /\ Client.script (snd r) = rest.
Proof.
  intros Hargc Hfd Hc Hv r. subst r.
  destruct (client_run_success argc argv sockfd c v h_addr input answer rest)
    as (Hret & Htr & Hfds & Hscript); [done..|].
  rewrite Htr.
  split; [done|split; [|split; [done|split; [done|split; done]]]].
  change (render "Please enter the message: " []
          ++ render ("%s" ++ nl) [filled answer] ++ []
          = list_byte_of_string "Please enter the message: "
            ++ c_str (take 255 answer) ++ ["010"%byte]).
  by rewrite render_reply, c_str_filled, app_nil_r.
Qed.

Lemma client_completes_exchange_witness :
  fst (Client.run (Client.main 3 ["client"; "localhost"; "8080"]%string)
         (Client.boot [Val 3; Bytes ["127"%byte; x00; x00; x01]; Val 0;
                       Bytes (list_byte_of_string "hi" ++ ["010"%byte]);
                       Val 3; Bytes ack]))
  = Ret 0.
Proof.
  pose proof (client_completes_exchange 3
                ["client"; "localhost"; "8080"]%string 3 0 3
                ["127"%byte; x00; x00; x01]
                (list_byte_of_string "hi" ++ ["010"%byte]) ack []) as H.
  destruct H as [H _]; [lia..|]. exact H.
Defined.

(** ** client.c and fork_server.c, end to end *)

(** The client up to its [write], which waits for the kernel. *)
Lemma client_hands_message (argc : Z) (argv : list string) (cfd c : Z)
    (h_addr input : list byte) :
  3 <= argc -> 0 <= cfd -> 0 <= c ->
  Client.sent
    (Client.trace
       (snd (Client.run (Client.main argc argv)
               (Client.boot [Val cfd; Bytes h_addr; Val c; Bytes input]))))
  = [(cfd, Client.message input)].
Proof.
  intros Hargc Hfd Hc. rewrite client_reaches_prompt by done.
  pose proof (fgets_buffer_message input) as Hmsg. cbv zeta in Hmsg.
  unfold_client. simpl_client.
  change (Z.to_nat (256 - 1 - 1)) with 254%nat.
  by rewrite Hmsg.
Qed.

(** The client after its [write], with no answer on the connection. *)
Lemma client_waits_for_answer (argc : Z) (argv : list string) (cfd c v : Z)
    (h_addr input : list byte) :
  3 <= argc -> 0 <= cfd -> 0 <= c -> 0 <= v ->
  let r := Client.run (Client.main argc argv)
             (Client.boot [Val cfd; Bytes h_addr; Val c; Bytes input; Val v]) in
  fst r = Blocked
  /\ last (Client.trace (snd r)) = Some (Client.Pending (Client.Read cfd 255))
  /\ Client.stdout (Client.trace (snd r))
     = list_byte_of_string "Please enter the message: ".
Proof.
  intros Hargc Hfd Hc Hv r. subst r. rewrite client_reaches_prompt by done.
  unfold_client. simpl_client. rewrite (not_negative v Hv). simpl_client.
  by repeat split.
Qed.

(** X22.  The two programs at the two ends of one connection.  When
    the message of the client is not empty, it fits the one [read] of
    the Worker, which shows it whole, byte for byte, and the 18 bytes
    the Worker sends back are what the client prints after its prompt,
    on a line of its own: [dostuff] returns and the client returns 0.
    When the message is empty (no input, or an input that begins with
    a NUL byte), nothing goes over the connection: the Worker waits in
    its [read] and the client in its own, for good. *)
Theorem exchange_round_trip (p : proc) (sfd : Z) (argc : Z)
    (argv : list string) (cfd c : Z) (h_addr input : list byte) :
  3 <= argc -> 0 <= cfd -> 0 <= c ->
  let r := exchange argc argv cfd c h_addr input sfd p in
  let client := fst r in
  let server := snd r in
  match Client.message input with
  | [] =>
      fst client = Blocked
      /\ last (Client.trace (snd client))
         = Some (Client.Pending (Client.Read cfd 255))
      /\ Client.sent (Client.trace (snd client)) = [(cfd, [])]
      /\ fst server = Blocked
      /\ trace (snd server) = trace p ++ [Pending (Read sfd 255)]
  | _ :: _ =>
      fst client = Ret 0
      /\ Client.sent (Client.trace (snd client))
         = [(cfd, Client.message input)]
      /\ Client.stdout (Client.trace (snd client))
         = list_byte_of_string "Please enter the message: I got your message"
           ++ ["010"%byte]
      /\ fst server = Ret tt
      /\ stdout (trace (snd server))
         = stdout (trace p)
           ++ list_byte_of_string "Message from client: "
           ++ Client.message input ++ ["010"%byte]
      /\ delivered (trace (snd server))
         = delivered (trace p) ++ [(sfd, ack)]
  end.
Proof.
  intros Hargc Hcfd Hc r client server. subst r client server.
  unfold exchange. cbn [fst snd].
  rewrite client_hands_message by done.
  change (mjoin (snd <$> [(cfd, Client.message input)]))
    with (Client.message input ++ []).
  rewrite app_nil_r.
  pose proof (message_length input) as Hlen.
  pose proof (c_str_has_no_nul (take 254 (Client.first_line input))) as Hnul.
  fold (Client.message input) in Hnul.
  destruct (Client.message input) as [|b msg] eqn:Hmsg.
  - cbn [arrives]. rewrite dostuff_read_pending. simpl_proc.
    rewrite drop_app_length.
    change (mjoin (snd <$> delivered [Pending (Read sfd 255)]))
      with (@nil byte).
    cbn [arrives app length].
    destruct (client_waits_for_answer argc argv cfd c 0 h_addr input)
      as (Hret & Hlast & _); [done|done|done|lia|].
    change (Z.of_nat 0) with 0.
    split; [exact Hret|split; [exact Hlast|split; [|done]]].
    rewrite client_reaches_prompt by done.
    pose proof (fgets_buffer_message input) as Hbuf. cbv zeta in Hbuf.
    unfold_client. simpl_client.
    change (Z.to_nat (256 - 1 - 1)) with 254%nat.
    by rewrite Hbuf, Hmsg.
  - cbn [arrives]. rewrite dostuff_served by lia. simpl_proc.
    rewrite <- !app_assoc, drop_app_length.
    change (mjoin (snd <$> delivered
              ([Sys (Read sfd 255) (Bytes (take 255 (b :: msg)))]
               ++ [Printf fmt_msg (filled (b :: msg))]
               ++ [Sys (Write sfd ack) (Val 18)])))
      with ack.
    change (arrives ack []) with [Bytes ack].
    destruct (client_run_success argc argv cfd c
                (Z.of_nat (length (b :: msg))) h_addr input ack [])
      as (Hret & Htr & _); [done|done|done|lia|].
    cbn [app] in Hret, Htr |- *. rewrite Hret, Htr, Hmsg.
    assert (Hshow : c_str (filled (b :: msg)) = b :: msg).
    { rewrite c_str_filled, take_ge by lia. by apply c_str_nul_free. }
    split; [done|split; [done|split; [|split; [done|split]]]].
    + change (render "Please enter the message: " []
              ++ render ("%s" ++ nl) [filled ack] ++ []
              = list_byte_of_string
                  "Please enter the message: I got your message"
                ++ ["010"%byte]).
      rewrite render_reply, c_str_filled. reflexivity.
    + rewrite !stdout_app. f_equal.
      change (stdout [Sys (Read sfd 255) (Bytes (take 255 (b :: msg)));
                      Printf fmt_msg (filled (b :: msg));
                      Sys (Write sfd ack) (Val 18)])
        with (render fmt_msg [filled (b :: msg)] ++ []).
      rewrite render_fmt_msg, Hshow. by rewrite <- !app_assoc.
    + unfold delivered. by rewrite omap_app.
Qed.

Lemma exchange_round_trip_witness :
  fst (fst (exchange 3 ["client"; "localhost"; "8080"]%string 3 0
              ["127"%byte; x00; x00; x01]
              (list_byte_of_string "hi" ++ ["010"%byte]) 4 (boot [])))
  = Ret 0.
Proof.
  pose proof (exchange_round_trip (boot []) 4 3
                ["client"; "localhost"; "8080"]%string 3 0
                ["127"%byte; x00; x00; x01]
                (list_byte_of_string "hi" ++ ["010"%byte])) as H.
  destruct H as (H & _); [lia..|]. exact H.
Defined.

(** ** client.c: the edges *)

(** X23.  The client does not look at what [fgets] returns.  At the end
    of the input its buffer is still the zeroed one: it hands a [write]
    of zero bytes to the kernel and goes on to wait for the answer. *)
Theorem client_sends_nothing_without_input (argc : Z) (argv : list string)
    (sockfd c v : Z) (h_addr : list byte) :
  3 <= argc -> 0 <= sockfd -> 0 <= c -> 0 <= v ->
  let r := Client.run (Client.main argc argv)
             (Client.boot [Val sockfd; Bytes h_addr; Val c; Bytes []; Val v]) in
  fst r = Blocked
  /\ Client.sent (Client.trace (snd r)) = [(sockfd, [])]
  /\ Client.complaints (Client.trace (snd r)) = []
  /\ last (Client.trace (snd r))
     = Some (Client.Pending (Client.Read sockfd 255)).
Proof.
  intros Hargc Hfd Hc Hv r. subst r.
  rewrite client_reaches_prompt by done.
  unfold_client. simpl_client.
  change (take (Z.to_nat (256 - 1 - 1)) (Client.first_line []))
    with (@nil byte).
  cbv iota.
  change (take (Z.to_nat (Client.strlen (bzero 256))) (bzero 256))
    with (@nil byte).
  rewrite (not_negative v Hv). simpl_client.
  by repeat split.
Qed.

Lemma client_sends_nothing_without_input_witness :
  Client.sent (Client.trace (snd (Client.run
    (Client.main 3 ["client"; "localhost"; "8080"]%string)
    (Client.boot [Val 3; Bytes ["127"%byte; x00; x00; x01]; Val 0;
                  Bytes []; Val 0]))))
  = [(3, [])].
Proof.
  pose proof (client_sends_nothing_without_input 3
                ["client"; "localhost"; "8080"]%string 3 0 0
                ["127"%byte; x00; x00; x01]) as H.
  destruct H as (_ & H & _); [lia..|]. exact H.
Defined.

(** X24.  The client closes nothing when it fails.  A failure of
    [write] or of [read] ends it through [error], with status 1: no
    [close] is made, nothing is printed after the prompt, and the
    socket is still in its table when it calls [exit].  The one failure
    of [write] that does not end so is EPIPE: the call does not return,
    SIGPIPE killing the client inside it, and nothing is reported. *)
Theorem client_fails_without_closing (argc : Z) (argv : list string)
    (sockfd c v e ew : Z) (h_addr input : list byte) (rest : list reply) :
  3 <= argc -> 0 <= sockfd -> 0 <= c -> 0 <= v -> ew <> EPIPE ->
  let start := [Val sockfd; Bytes h_addr; Val c; Bytes input] in
  let prompt := list_byte_of_string "Please enter the message: " in
  let nowrite := Client.run (Client.main argc argv)
                   (Client.boot (start ++ Err ew :: rest)) in
  let nopipe := Client.run (Client.main argc argv)
                  (Client.boot (start ++ Err EPIPE :: rest)) in
  let noread := Client.run (Client.main argc argv)
                  (Client.boot (start ++ Val v :: Err e :: rest)) in
  (fst nowrite = Exited 1
   /\ Client.complaints (Client.trace (snd nowrite))
      = ["ERROR writing to socket"%string]
   /\ Client.closed (Client.trace (snd nowrite)) = []
   /\ Client.fds (snd nowrite) = {[sockfd]}
   /\ Client.stdout (Client.trace (snd nowrite)) = prompt
   /\ last (Client.trace (snd nowrite)) = Some (Client.Exit 1))
  /\ (fst nopipe = Blocked
      /\ Client.complaints (Client.trace (snd nopipe)) = []
      /\ Client.closed (Client.trace (snd nopipe)) = []
      /\ Client.stdout (Client.trace (snd nopipe)) = prompt
      /\ last (Client.trace (snd nopipe))
         = Some (Client.Pending (Client.Write sockfd (Client.message input))))
  /\ (fst noread = Exited 1
      /\ Client.complaints (Client.trace (snd noread))
         = ["ERROR reading from socket"%string]
      /\ Client.closed (Client.trace (snd noread)) = []
      /\ Client.fds (snd noread) = {[sockfd]}
      /\ Client.stdout (Client.trace (snd noread)) = prompt
      /\ last (Client.trace (snd noread)) = Some (Client.Exit 1)).
Proof.
  intros Hargc Hfd Hc Hv Hew start prompt nowrite nopipe noread.
  subst start prompt nowrite nopipe noread.
  cbn [app]. rewrite !client_reaches_prompt by done.
  pose proof (fgets_buffer_message input) as Hmsg. cbv zeta in Hmsg.
  unfold_client. simpl_client.
  change (Z.to_nat (256 - 1 - 1)) with 254%nat.
  rewrite Hmsg, (proj2 (Z.eqb_neq ew EPIPE) Hew).
  change (EPIPE =? EPIPE) with true. simpl_client.
  change (-1 <? 0) with true. simpl_client.
  rewrite (not_negative v Hv). simpl_client.
  change (-1 <? 0) with true. simpl_client.
  repeat split; by rewrite ?union_empty_r_L.
Qed.

Lemma client_fails_without_closing_witness :
  fst (Client.run (Client.main 3 ["client"; "localhost"; "8080"]%string)
         (Client.boot [Val 3; Bytes ["127"%byte; x00; x00; x01]; Val 0;
                       Bytes (list_byte_of_string "hi" ++ ["010"%byte]);
                       Err ECONNRESET]))
  = Exited 1.
Proof.
  pose proof (client_fails_without_closing 3
                ["client"; "localhost"; "8080"]%string 3 0 0 ECONNRESET
                ECONNRESET ["127"%byte; x00; x00; x01]
                (list_byte_of_string "hi" ++ ["010"%byte]) []) as H.
  destruct H as ((H & _) & _); [lia..|discriminate|]. exact H.
Defined.
